(** * Entity Hoarder: record store, search dispatcher and ranking engine

    A shallow embedding of [entity-hoarder.py].  The SQLite connection is
    modelled as an explicit [Store] value that every operation takes and
    returns; a raised Python exception is the [Raise] case of [Result].
    The clock read by [now_iso] is an explicit argument.

    Text is modelled as byte strings restricted to ASCII: [lower],
    [isalnum] and [isspace] classify the 7-bit range the way Python does
    and leave every other byte alone.  On a text with a character outside
    that range ([ascii_only] false) they are not Python's: Python lowers
    and counts as alphanumeric letters such as U+00E9, and strips blanks
    such as U+00A0.  A property that depends on the difference is stated
    for 7-bit text. *)

From Stdlib Require Import ZArith Ascii String List Bool Lia.
From Stdlib Require Import DecimalString DecimalPos.
From Stdlib Require Import Floats.SpecFloat.
From stdpp Require Import gmap strings list sorting.

Local Open Scope Z_scope.

(** ** Characters and strings *)

Definition code (c : ascii) : N := N_of_ascii c.

Definition is_upper (c : ascii) : bool := ((65 <=? code c) && (code c <=? 90))%N.
Definition is_lower (c : ascii) : bool := ((97 <=? code c) && (code c <=? 122))%N.
Definition is_digit (c : ascii) : bool := ((48 <=? code c) && (code c <=? 57))%N.

(** [c.isalnum()] on the 7-bit range *)
Definition isalnum (c : ascii) : bool := is_upper c || is_lower c || is_digit c.

(** [c.isspace()] on the 7-bit range: TAB..CR, FS..US and the blank.
    [str.strip()] removes these and, beyond the range, the blanks of
    Unicode (U+0085, U+00A0, U+2000.. and others), which the model keeps. *)
Definition isspace (c : ascii) : bool :=
  (((9 <=? code c) && (code c <=? 13)) || ((28 <=? code c) && (code c <=? 32)))%N.

(** [c.lower()] on the 7-bit range *)
Definition lower_char (c : ascii) : ascii :=
  if is_upper c then ascii_of_N (code c + 32) else c.

Definition upper_char (c : ascii) : ascii :=
  if is_lower c then ascii_of_N (code c - 32) else c.

Definition chars (s : string) : list ascii := list_ascii_of_string s.
Definition text (l : list ascii) : string := string_of_list_ascii l.

(** [s.lower()] and [s.upper()] *)
Definition lower (s : string) : string := text (map lower_char (chars s)).
Definition upper (s : string) : string := text (map upper_char (chars s)).

Definition dash : ascii := "-"%char.
Definition is_dash (c : ascii) : bool := Ascii.eqb c dash.

(** ['--' in s] *)
Fixpoint has_dd (l : list ascii) : bool :=
  match l with
  | c1 :: ((c2 :: _) as t) => (is_dash c1 && is_dash c2) || has_dd t
  | _ => false
  end.

(** [s.replace('--', '-')]: one pass, left to right, occurrences not
    overlapping. *)
Fixpoint replace_dd (l : list ascii) : list ascii :=
  match l with
  | c1 :: ((c2 :: r) as t) =>
      if is_dash c1 && is_dash c2 then dash :: replace_dd r
      else c1 :: replace_dd t
  | _ => l
  end.

(** [while '--' in s: s = s.replace('--', '-')], the loop unrolled [fuel]
    times. *)
Fixpoint collapse (fuel : nat) (l : list ascii) : list ascii :=
  match fuel with
  | O => l
  | S n => if has_dd l then collapse n (replace_dd l) else l
  end.

(** [s.lstrip(cs)], [s.rstrip(cs)] and [s.strip(cs)] for a character class. *)
Fixpoint lstrip (p : ascii -> bool) (l : list ascii) : list ascii :=
  match l with
  | c :: r => if p c then lstrip p r else l
  | [] => []
  end.
Definition rstrip (p : ascii -> bool) (l : list ascii) : list ascii :=
  rev (lstrip p (rev l)).
Definition strip (p : ascii -> bool) (l : list ascii) : list ascii :=
  rstrip p (lstrip p l).

(** [slugify], for a name of 7-bit text: a letter or digit beyond that
    range stays in the slug of the source and is a dash here. *)
Definition slugify (name : string) : string :=
  let s := map lower_char (chars name) in
  let s := map (fun c => if isalnum c then c else dash) s in
  let s := collapse (length s) s in
  text (firstn 200 (strip is_dash s)).

(** ** Python values

    The values a [Dict[str, Any]] of fields holds: what the prompts
    produce and what JSON metadata is made of. *)

#[local] Set Warnings "-register-all".

Inductive PyVal : Type :=
| PyNone
| PyBool (b : bool)
| PyInt (z : Z)
| PyStr (s : string)
| PyList (l : list PyVal)
| PyDict (d : list (string * PyVal)).

(** Truth value of an object, as [or] and [if] test it. *)
Definition truthy (v : PyVal) : bool :=
  match v with
  | PyNone => false
  | PyBool b => b
  | PyInt z => negb (z =? 0)
  | PyStr s => negb (String.eqb s "")
  | PyList l => match l with [] => false | _ => true end
  | PyDict d => match d with [] => false | _ => true end
  end.

(** [a or b] *)
Definition py_or (a b : PyVal) : PyVal := if truthy a then a else b.

Inductive Constraint : Type :=
| NotNull (column : string)
| Unique (column : string).

(** The exceptions of the statements modelled.  Two more that SQLite can
    raise are not among them, and the stores and patterns that bring them
    are outside the model: [sqlite3.DatabaseError], from a trigger on an
    index that does not hold the row it is told to remove, and
    [sqlite3.OperationalError], from a LIKE pattern over 50000 bytes. *)
Inductive PyErr : Type :=
| IntegrityError (c : Constraint)
| ProgrammingError
| OverflowError
| AttributeError.

Inductive Result (A : Type) : Type :=
| Ok (a : A)
| Raise (e : PyErr).
Arguments Ok {A} a.
Arguments Raise {A} e.

(** ** [json.dumps] with its defaults *)

Definition str_of_Z (z : Z) : string := NilZero.string_of_int (Z.to_int z).

Definition dquote : ascii := ascii_of_N 34.
Definition backslash : ascii := ascii_of_N 92.

Definition hex_digit (n : N) : ascii :=
  if (n <? 10)%N then ascii_of_N (48 + n) else ascii_of_N (87 + n).

(** One character of a JSON string literal ([ensure_ascii=True]). *)
Definition json_escape_char (c : ascii) : list ascii :=
  let n := code c in
  if (n =? 34)%N then [backslash; dquote]
  else if (n =? 92)%N then [backslash; backslash]
  else if (n =? 10)%N then chars "\n"
  else if (n =? 13)%N then chars "\r"
  else if (n =? 9)%N then chars "\t"
  else if (n =? 8)%N then chars "\b"
  else if (n =? 12)%N then chars "\f"
  else if ((32 <=? n) && (n <=? 126))%N then [c]
  else chars "\u00" ++ [hex_digit (n / 16); hex_digit (n mod 16)].

Definition json_quote (s : string) : string :=
  text (dquote :: flat_map json_escape_char (chars s) ++ [dquote]).

Definition join (sep : string) (l : list string) : string :=
  match l with
  | [] => ""
  | x :: r => fold_left (fun acc y => acc +:+ sep +:+ y) r x
  end.

Fixpoint json_dumps (v : PyVal) : string :=
  match v with
  | PyNone => "null"
  | PyBool true => "true"
  | PyBool false => "false"
  | PyInt z => str_of_Z z
  | PyStr s => json_quote s
  | PyList l => "[" +:+ join ", " (map json_dumps l) +:+ "]"
  | PyDict d =>
      "{" +:+ join ", " (map (fun kv => json_quote (fst kv) +:+ ": " +:+ json_dumps (snd kv)) d)
          +:+ "}"
  end.



(** [fields.get(k)] and [fields.get(k, d)] *)
Definition dict_get (fields : gmap string PyVal) (k : string) : PyVal :=
  default PyNone (fields !! k).
Definition dict_get_or (fields : gmap string PyVal) (k : string) (d : PyVal) : PyVal :=
  default d (fields !! k).

(** ** The database behind the connection

    Every column of [entities] but [id] has TEXT affinity, so a stored
    value is NULL ([None]) or a text.  [entities] lists the rows in rowid
    order, the order of a table scan.  [sqlite_sequence] is the counter
    AUTOINCREMENT keeps.  [entities_fts] is the content of the full-text
    index when [init_db] created it with its three triggers, [None] when
    the table does not exist. *)

Record Row : Type := mkRow {
  row_id : Z;
  row_type : option string;
  row_name : option string;
  row_slug : option string;
  row_description : option string;
  row_tags : option string;
  row_metadata : option string;
  row_created_at : option string;
  row_updated_at : option string
}.

Record Doc : Type := mkDoc {
  doc_rowid : Z;
  doc_name : option string;
  doc_description : option string;
  doc_tags : option string
}.

Record Store : Type := mkStore {
  entities : list Row;
  sqlite_sequence : Z;
  entities_fts : option (list Doc)
}.

(** A statement runs against the store and either returns or raises; the
    store it leaves behind is explicit in both cases. *)
Definition M (A : Type) : Type := Store -> Result A * Store.

Definition ret {A : Type} (a : A) : M A := fun s => (Ok a, s).
Definition raise {A : Type} (e : PyErr) : M A := fun s => (Raise e, s).
Definition bind {A B : Type} (m : M A) (k : A -> M B) : M B :=
  fun s => match m s with
           | (Ok a, s') => k a s'
           | (Raise e, s') => (Raise e, s')
           end.
Definition lift {A : Type} (r : Result A) : M A := fun s => (r, s).

Notation "'let!' x ':=' m 'in' k" := (bind m (fun x => k))
  (at level 10, x pattern, m at level 100, k at level 200).

(** *** Binding a Python value to a statement parameter

    [sqlite3] adapts [None], [int] (so [bool]) and [str]; a list or a
    dict is refused.  In a TEXT column an integer is kept as its decimal
    text. *)
Definition int64_ok (z : Z) : bool := (- 2 ^ 63 <=? z) && (z <? 2 ^ 63).

Definition bind_text (v : PyVal) : Result (option string) :=
  match v with
  | PyNone => Ok None
  | PyBool b => Ok (Some (if b then "1" else "0")%string)
  | PyInt z => if int64_ok z then Ok (Some (str_of_Z z)) else Raise OverflowError
  | PyStr s => Ok (Some s)
  | PyList _ | PyDict _ => Raise ProgrammingError
  end.

(** *** Triggers [entities_ai], [entities_ad], [entities_au] *)

Definition doc_of (r : Row) : Doc :=
  mkDoc (row_id r) (row_name r) (row_description r) (row_tags r).

(** The index is kept by rowid. *)
Fixpoint fts_insert (d : Doc) (ix : list Doc) : list Doc :=
  match ix with
  | [] => [d]
  | x :: rest => if doc_rowid d <? doc_rowid x then d :: ix else x :: fts_insert d rest
  end.

(** [INSERT INTO entities_fts(entities_fts, rowid, ...) VALUES('delete', old.id, ...)]:
    the document of that rowid leaves the index.  This is FTS5 on an index
    that holds the document given, as the triggers keep it
    ([index_in_sync]).  Told to remove a document it does not hold, FTS5
    may corrupt the index or raise [sqlite3.DatabaseError]; the filter
    below does neither, and is not the source there. *)
Definition fts_delete (d : Doc) (ix : list Doc) : list Doc :=
  filter (fun x => doc_rowid x ≠ doc_rowid d) ix.

Definition entities_ai (new : Row) (ix : option (list Doc)) : option (list Doc) :=
  fts_insert (doc_of new) <$> ix.
Definition entities_ad (old : Row) (ix : option (list Doc)) : option (list Doc) :=
  fts_delete (doc_of old) <$> ix.
Definition entities_au (old new : Row) (ix : option (list Doc)) : option (list Doc) :=
  (fun i => fts_insert (doc_of new) (fts_delete (doc_of old) i)) <$> ix.

(** *** INSERT *)

Definition max_rowid (rows : list Row) : Z :=
  fold_right (fun r m => Z.max (row_id r) m) 0 rows.

(** AUTOINCREMENT: one more than the largest rowid the table has ever held. *)
Definition next_rowid (s : Store) : Z :=
  Z.max (sqlite_sequence s) (max_rowid (entities s)) + 1.

Definition is_null (v : option string) : bool :=
  match v with None => true | Some _ => false end.

Definition same_text (a b : option string) : bool :=
  match a, b with
  | Some x, Some y => String.eqb x y
  | _, _ => false
  end.

(** [slug TEXT UNIQUE]: NULLs never collide. *)
Definition slug_taken (slug : option string) (rows : list Row) : bool :=
  existsb (fun r => same_text (row_slug r) slug) rows.

(** [INSERT INTO entities (type, name, slug, description, tags, metadata,
    created_at, updated_at) VALUES (?, ?, ?, ?, ?, ?, ?, ?)]; the rowid
    the cursor reports is returned.  NOT NULL is checked before UNIQUE. *)
Definition sql_insert (ty name slug description tags metadata created updated : option string)
  : M Z := fun s =>
  if is_null ty then (Raise (IntegrityError (NotNull "type")), s)
  else if is_null name then (Raise (IntegrityError (NotNull "name")), s)
  else if is_null created then (Raise (IntegrityError (NotNull "created_at")), s)
  else if is_null updated then (Raise (IntegrityError (NotNull "updated_at")), s)
  else if slug_taken slug (entities s) then (Raise (IntegrityError (Unique "slug")), s)
  else
    let rid := next_rowid s in
    let r := mkRow rid ty name slug description tags metadata created updated in
    (Ok rid, mkStore (entities s ++ [r]) rid (entities_ai r (entities_fts s))).

(** *** UPDATE *)

Inductive Column : Type :=
| c_type | c_name | c_slug | c_description | c_tags | c_metadata | c_updated_at.

Definition set_col (r : Row) (cv : Column * option string) : Row :=
  let (c, v) := cv in
  match c with
  | c_type => mkRow (row_id r) v (row_name r) (row_slug r) (row_description r) (row_tags r)
                (row_metadata r) (row_created_at r) (row_updated_at r)
  | c_name => mkRow (row_id r) (row_type r) v (row_slug r) (row_description r) (row_tags r)
                (row_metadata r) (row_created_at r) (row_updated_at r)
  | c_slug => mkRow (row_id r) (row_type r) (row_name r) v (row_description r) (row_tags r)
                (row_metadata r) (row_created_at r) (row_updated_at r)
  | c_description => mkRow (row_id r) (row_type r) (row_name r) (row_slug r) v (row_tags r)
                (row_metadata r) (row_created_at r) (row_updated_at r)
  | c_tags => mkRow (row_id r) (row_type r) (row_name r) (row_slug r) (row_description r) v
                (row_metadata r) (row_created_at r) (row_updated_at r)
  | c_metadata => mkRow (row_id r) (row_type r) (row_name r) (row_slug r) (row_description r)
                (row_tags r) v (row_created_at r) (row_updated_at r)
  | c_updated_at => mkRow (row_id r) (row_type r) (row_name r) (row_slug r) (row_description r)
                (row_tags r) (row_metadata r) (row_created_at r) v
  end.

(** The SET clause, applied left to right. *)
Definition apply_sets (sets : list (Column * option string)) (r : Row) : Row :=
  fold_left set_col sets r.

Definition col (c : Column) (r : Row) : option string :=
  match c with
  | c_type => row_type r
  | c_name => row_name r
  | c_slug => row_slug r
  | c_description => row_description r
  | c_tags => row_tags r
  | c_metadata => row_metadata r
  | c_updated_at => row_updated_at r
  end.

Definition not_null_column (c : Column) : option string :=
  match c with
  | c_type => Some "type"%string
  | c_name => Some "name"%string
  | c_updated_at => Some "updated_at"%string
  | _ => None
  end.

(** NOT NULL and UNIQUE are checked for the columns the statement
    assigns, not for the ones it leaves alone. *)
Fixpoint not_null_violation (sets : list (Column * option string)) : option string :=
  match sets with
  | [] => None
  | (c, v) :: rest =>
      match not_null_column c with
      | Some name => if is_null v then Some name else not_null_violation rest
      | None => not_null_violation rest
      end
  end.

Definition assigns_slug (sets : list (Column * option string)) : bool :=
  existsb (fun cv => match fst cv with c_slug => true | _ => false end) sets.

(** The rows of the table with every row of rowid [rid] rewritten, and
    the index as trigger [entities_au] leaves it. *)
Fixpoint update_rows (sets : list (Column * option string)) (rid : Z) (others : list Row)
    (rows : list Row) (ix : option (list Doc)) : Result (list Row * option (list Doc)) :=
  match rows with
  | [] => Ok ([], ix)
  | r :: rest =>
      if row_id r =? rid then
        let r' := apply_sets sets r in
        match not_null_violation sets with
        | Some name => Raise (IntegrityError (NotNull name))
        | None =>
            if assigns_slug sets && slug_taken (row_slug r') others
            then Raise (IntegrityError (Unique "slug"))
            else
              match update_rows sets rid others rest (entities_au r r' ix) with
              | Ok (rest', ix') => Ok (r' :: rest', ix')
              | Raise e => Raise e
              end
        end
      else
        match update_rows sets rid others rest ix with
        | Ok (rest', ix') => Ok (r :: rest', ix')
        | Raise e => Raise e
        end
  end.

(** [UPDATE entities SET ... WHERE id = ?].  [id] is the primary key: the
    uniqueness of a rewritten slug is checked against the other rows. *)
Definition sql_update (sets : list (Column * option string)) (rid : Z) : M unit := fun s =>
  let others := filter (fun r => row_id r ≠ rid) (entities s) in
  match update_rows sets rid others (entities s) (entities_fts s) with
  | Ok (rows', ix') => (Ok tt, mkStore rows' (sqlite_sequence s) ix')
  | Raise e => (Raise e, s)
  end.

(** *** DELETE and SELECT *)

(** [DELETE FROM entities WHERE id = ?] *)
Definition sql_delete (rid : Z) : M unit := fun s =>
  let gone := filter (fun r => row_id r = rid) (entities s) in
  (Ok tt,
   mkStore (filter (fun r => row_id r ≠ rid) (entities s)) (sqlite_sequence s)
           (fold_left (fun ix r => entities_ad r ix) gone (entities_fts s))).

(** [SELECT * FROM entities WHERE id = ?] *)
Definition sql_select_by_id (rid : Z) (s : Store) : list Row :=
  filter (fun r => row_id r = rid) (entities s).

(** [cur.fetchone()] *)
Definition fetchone (rows : list Row) : option Row := head rows.

(** ** The record store: [add_entity], [update_entity], [delete_entity],
    [fetch_entity]

    [conn.commit()] ends the transaction and changes nothing in what the
    connection sees; it has no counterpart here. *)

(** [slugify(x)]: [x.lower()] exists on a [str] only. *)
Definition py_slugify (v : PyVal) : Result PyVal :=
  match v with
  | PyStr s => Ok (PyStr (slugify s))
  | _ => Raise AttributeError
  end.

(** An [int] parameter. *)
Definition bind_int (z : Z) : Result Z :=
  if int64_ok z then Ok z else Raise OverflowError.

(** [fields.get('slug') or slugify(fields.get('name', ''))] *)
Definition entity_slug (fields : gmap string PyVal) : Result PyVal :=
  if truthy (dict_get fields "slug") then Ok (dict_get fields "slug")
  else py_slugify (dict_get_or fields "name" (PyStr "")).

Definition add_entity (fields : gmap string PyVal) (now : string) : M Z :=
  let! slug := lift (entity_slug fields) in
  let created := now in
  let updated := created in
  let metadata_text := json_dumps (py_or (dict_get fields "metadata") (PyDict [])) in
  let! ty := lift (bind_text (dict_get fields "type")) in
  let! name := lift (bind_text (dict_get fields "name")) in
  let! slug := lift (bind_text slug) in
  let! description := lift (bind_text (dict_get fields "description")) in
  let! tags := lift (bind_text (dict_get fields "tags")) in
  sql_insert ty name slug description tags (Some metadata_text) (Some created) (Some updated).

(** [k in fields and fields[k] is not None] *)
Definition supplied (fields : gmap string PyVal) (k : string) : option PyVal :=
  match fields !! k with
  | Some PyNone => None
  | o => o
  end.

Definition text_columns : list (string * Column) :=
  [("type", c_type); ("name", c_name); ("slug", c_slug);
   ("description", c_description); ("tags", c_tags)]%string.

(** The keys [update_entity] reads, each with the column it assigns. *)
Definition field_columns : list (string * Column) :=
  text_columns ++ [("metadata", c_metadata)]%string.

(** The [parts] and [vals] lists, built together. *)
Definition set_clause (fields : gmap string PyVal) (now : string) : list (Column * PyVal) :=
  omap (fun kc => (fun v => (snd kc, v)) <$> supplied fields (fst kc)) text_columns
  ++ match supplied fields "metadata" with
     | Some v => [(c_metadata, PyStr (json_dumps v))]
     | None => []
     end
  ++ [(c_updated_at, PyStr now)].

Fixpoint bind_all (l : list (Column * PyVal)) : Result (list (Column * option string)) :=
  match l with
  | [] => Ok []
  | (c, v) :: rest =>
      match bind_text v with
      | Raise e => Raise e
      | Ok t => match bind_all rest with
                | Raise e => Raise e
                | Ok ts => Ok ((c, t) :: ts)
                end
      end
  end.

Definition update_entity (entity_id : Z) (fields : gmap string PyVal) (now : string) : M unit :=
  let! sets := lift (bind_all (set_clause fields now)) in
  let! rid := lift (bind_int entity_id) in
  sql_update sets rid.

Definition delete_entity (entity_id : Z) : M unit :=
  let! rid := lift (bind_int entity_id) in
  sql_delete rid.

Definition fetch_entity (entity_id : Z) : M (option Row) :=
  let! rid := lift (bind_int entity_id) in
  fun s => (Ok (fetchone (sql_select_by_id rid s)), s).

Definition empty_store : Store := mkStore [] 0 None.
Definition empty_store_fts : Store := mkStore [] 0 (Some []).

Definition ada : gmap string PyVal :=
  {[ "type" := PyStr "person"; "name" := PyStr "Ada Lovelace";
     "description" := PyStr "mathematician" ]}.

Definition absent (rid : Z) (s : Store) : Prop :=
  Forall (fun r => row_id r ≠ rid) (entities s).

Definition store_ada : Store :=
  snd (add_entity ada "2024-05-01T10:00:00.000001Z" empty_store_fts).

(** The row an INSERT that passes its constraints adds. *)
Definition inserted (s : Store) (r : Row) : Store :=
  mkStore (entities s ++ [r]) (row_id r) (entities_ai r (entities_fts s)).

(** Every parameter of the INSERT binds: no exception before the
    statement runs. *)
Definition params_bind (fields : gmap string PyVal) : Prop :=
  (exists sv slug, entity_slug fields = Ok sv /\ bind_text sv = Ok slug)
  /\ Forall (fun k => exists t, bind_text (dict_get fields k) = Ok t)
       ["type"; "name"; "description"; "tags"]%string.

(** What the claims call a valid field set: text, or nothing, where text
    is expected and a mapping, or nothing, for the metadata. *)
Definition plain (v : PyVal) : Prop := v = PyNone \/ exists t, v = PyStr t.
Definition mapping (v : PyVal) : Prop := v = PyNone \/ exists d, v = PyDict d.

Definition column_of (v : PyVal) : option string :=
  match v with PyStr t => Some t | _ => None end.
Definition mapping_of (v : PyVal) : list (string * PyVal) :=
  match v with PyDict d => d | _ => [] end.

(** ** Capability detection: [db_supports_fts], [db_supports_json1],
    [init_db] *)

(** [p in t] on strings *)
Fixpoint starts_with (p t : list ascii) : bool :=
  match p, t with
  | [], _ => true
  | _ :: _, [] => false
  | c :: p', d :: t' => Ascii.eqb c d && starts_with p' t'
  end.

Fixpoint contains (p t : list ascii) : bool :=
  starts_with p t ||
  match t with
  | [] => false
  | _ :: t' => contains p t'
  end.

Definition str_in (p t : string) : bool := contains (chars p) (chars t).

(** What the SQLite library behind the connection is: the rows of
    [PRAGMA compile_options], whether [CREATE VIRTUAL TABLE ... USING fts5]
    goes through, and whether [SELECT json('{}')] does. *)
Record Engine : Type := mkEngine {
  compile_options : list string;
  fts5_module : bool;
  json1_functions : bool
}.

Definition db_supports_fts (e : Engine) : bool :=
  let opts := map upper (compile_options e) in
  if existsb (fun o => str_in "ENABLE_FTS5" o || str_in "FTS5" o) opts then true
  else
    (* CREATE VIRTUAL TABLE IF NOT EXISTS __fts_test USING fts5(content);
       DROP TABLE IF EXISTS __fts_test; any exception gives False *)
    if fts5_module e then true else false.

Definition db_supports_json1 (e : Engine) : bool :=
  if json1_functions e then true else false.

Record Features : Type := mkFeatures { fts : bool; json : bool }.

(** [CREATE TABLE IF NOT EXISTS entities] and its two indexes leave the
    rows of an existing table alone.  With [fts_ok], the virtual table and
    the triggers are created unless they exist; the new index is empty
    (it is an external-content table, filled by the triggers only).  An
    exception there turns [fts_ok] off.  Table and triggers are one thing
    in [Store]: the script of the triggers is taken to go through whenever
    the creation of the table does, and a failure of the script alone,
    which would leave the table behind with [fts] false, is not modelled. *)
Definition init_db (e : Engine) (conn : Store) : Features * Store :=
  let fts_ok := db_supports_fts e in
  let json_ok := db_supports_json1 e in
  if fts_ok then
    match entities_fts conn with
    | Some _ => (mkFeatures true json_ok, conn)
    | None =>
        if fts5_module e
        then (mkFeatures true json_ok,
              mkStore (entities conn) (sqlite_sequence conn) (Some []))
        else (mkFeatures false json_ok, conn)
    end
  else (mkFeatures false json_ok, conn).

(** Whether a compile option of the engine names FTS5. *)
Definition declares_fts5 (e : Engine) : bool :=
  existsb (fun o => str_in "FTS5" (upper o)) (compile_options e).

(** An engine that advertises FTS5 among its compile options and fails
    to create an fts5 table. *)
Definition engine_flag_only : Engine :=
  mkEngine ["COMPILER=gcc-13.2.0"; "ENABLE_FTS5"; "THREADSAFE=1"] false true.

(** ** The search dispatcher: [search_entities] *)

(** A stable sort, largest key first: an element goes in front of the
    first one whose key is not strictly larger than its own. *)
Section StableSort.
Context {A K : Type} (key : A -> K) (lt : K -> K -> bool).

Fixpoint insert_desc (x : A) (l : list A) : list A :=
  match l with
  | [] => [x]
  | y :: rest => if lt (key x) (key y) then y :: insert_desc x rest else x :: l
  end.

Definition sort_desc (l : list A) : list A := foldr insert_desc [] l.

(** An element that may stand before another in the result. *)
Definition not_below (a b : A) : Prop := lt (key a) (key b) = false.
End StableSort.

(** [<] on the values of a TEXT column: NULL is below every text, texts
    compare byte by byte. *)
Definition sql_lt (a b : option string) : bool :=
  match a, b with
  | None, Some _ => true
  | Some x, Some y => String.ltb x y
  | _, None => false
  end.

(** [ORDER BY updated_at DESC] *)
Definition order_by_updated_desc (rows : list Row) : list Row :=
  sort_desc row_updated_at sql_lt rows.

(** [LIMIT ?]: a negative limit is no limit. *)
Definition sql_limit {A : Type} (limit : Z) (rows : list A) : list A :=
  if limit <? 0 then rows else take (Z.to_nat limit) rows.

Definition percent : ascii := "%"%char.
Definition underscore : ascii := "_"%char.

(** The LIKE operator: [%] stands for any run of characters, [_] for any
    one character, every other character for itself, the letters of the
    7-bit range without regard to case.  SQLite reads pattern and text up
    to their first NUL and refuses a pattern over 50000 bytes; here NUL is
    a character like any other and no pattern is too long ([nul_free],
    [like_pattern_fits] below say where the two agree). *)
Fixpoint like_match (p t : list ascii) : bool :=
  match p with
  | [] => match t with [] => true | _ :: _ => false end
  | c :: p' =>
      if Ascii.eqb c percent then
        (fix any_suffix (t : list ascii) : bool :=
           like_match p' t ||
           match t with
           | [] => false
           | _ :: t' => any_suffix t'
           end) t
      else
        match t with
        | [] => false
        | d :: t' =>
            (Ascii.eqb c underscore || Ascii.eqb (lower_char c) (lower_char d))
            && like_match p' t'
        end
  end.

(** [column LIKE ?]: NULL matches nothing. *)
Definition sql_like (pattern : string) (v : option string) : bool :=
  match v with
  | None => false
  | Some t => like_match (chars pattern) (chars t)
  end.

(** [SELECT * FROM entities WHERE name LIKE ? OR description LIKE ? OR tags
    LIKE ? ORDER BY updated_at DESC LIMIT ?] *)
Definition sql_select_like (like_q : string) (limit : Z) (s : Store) : list Row :=
  sql_limit limit
    (order_by_updated_desc
       (List.filter (fun r => sql_like like_q (row_name r)
                              || sql_like like_q (row_description r)
                              || sql_like like_q (row_tags r))
          (entities s))).

(** [SELECT * FROM entities ORDER BY updated_at DESC LIMIT ?] *)
Definition sql_select_recent (limit : Z) (s : Store) : list Row :=
  sql_limit limit (order_by_updated_desc (entities s)).

(** [SELECT e.* FROM entities_fts f JOIN entities e ON f.rowid = e.id WHERE
    entities_fts MATCH ? LIMIT ?].  [fts5_match q] is the matcher the
    index engine makes of the query text, [None] when it refuses the
    text.  Nothing orders the rows: they come as the index is walked, by
    rowid.  [None] is an exception (no such table, or a refused query). *)
Definition sql_select_match (fts5_match : string -> option (Doc -> bool))
    (q : string) (limit : Z) (s : Store) : option (list Row) :=
  match entities_fts s, fts5_match q with
  | Some ix, Some hit =>
      Some (sql_limit limit
              (flat_map (fun d => List.filter (fun e => doc_rowid d =? row_id e) (entities s))
                 (List.filter hit ix)))
  | _, _ => None
  end.

Definition search_entities (fts5_match : string -> option (Doc -> bool))
    (query : string) (fts : bool) (limit : Z) : M (list Row) :=
  let q := text (strip isspace (chars query)) in
  let! limit := lift (bind_int limit) in
  fun s =>
    if String.eqb q "" then (Ok (sql_select_recent limit s), s)
    else
      let fallback := sql_select_like ("%" +:+ q +:+ "%") limit s in
      if fts then
        match sql_select_match fts5_match q limit s with
        | Some (r :: rows) => (Ok (r :: rows), s)
        | _ => (Ok fallback, s)
        end
      else (Ok fallback, s).

(** ** The substring scan of the specification: [scanTextMatch]

    Written from the specification's words, to be compared with
    [search_entities]: the entities whose name, description or tags
    contain the pattern as a substring, letters compared without regard to
    case, most recently updated first, at most [limit] of them. *)
Definition contains_ci (pattern t : string) : bool :=
  str_in (lower pattern) (lower t).

Definition field_contains_ci (pattern : string) (v : option string) : bool :=
  match v with
  | None => false
  | Some t => contains_ci pattern t
  end.

Definition scanTextMatch_spec (pattern : string) (limit : Z) (s : Store) : list Row :=
  take (Z.to_nat limit)
    (order_by_updated_desc
       (List.filter (fun r => field_contains_ci pattern (row_name r)
                              || field_contains_ci pattern (row_description r)
                              || field_contains_ci pattern (row_tags r))
          (entities s))).

(** No character of the text is a LIKE wildcard. *)
Definition wildcard_free (l : list ascii) : bool :=
  forallb (fun c => negb (Ascii.eqb c percent || Ascii.eqb c underscore)) l.

(** ** A small index engine, for examples

    Its matcher accepts the documents with a column that contains the
    query, letters compared without regard to case; its relevance is the
    number of occurrences of the query in the name. *)
Definition doc_contains (q : string) (d : Doc) : bool :=
  field_contains_ci q (doc_name d)
  || field_contains_ci q (doc_description d)
  || field_contains_ci q (doc_tags d).

Definition match_any_column (q : string) : option (Doc -> bool) :=
  Some (doc_contains q).

Fixpoint occurrences (p t : list ascii) : nat :=
  match t with
  | [] => 0%nat
  | _ :: t' => ((if starts_with p t then 1 else 0) + occurrences p t')%nat
  end.

Definition term_count (q : string) (v : option string) : nat :=
  match v with
  | None => 0%nat
  | Some t => occurrences (chars (lower q)) (chars (lower t))
  end.

Definition person (name : string) : gmap string PyVal :=
  {[ "type" := PyStr "person"; "name" := PyStr name ]}.

(** Two stores with an index, holding the same two names in opposite
    orders of creation. *)
Definition store_short_first : Store :=
  snd ((let! _ := add_entity (person "Ada") "2024-05-01T10:00:00.000001Z" in
        add_entity (person "Ada Ada Ada") "2024-05-01T10:00:01.000001Z") empty_store_fts).

Definition store_long_first : Store :=
  snd ((let! _ := add_entity (person "Ada Ada Ada") "2024-05-01T10:00:00.000001Z" in
        add_entity (person "Ada") "2024-05-01T10:00:01.000001Z") empty_store_fts).

(** ** Reading the metadata back: [view_entity]

    [json.loads] is taken as it comes: [loads t] is the value of the
    document [t], [None] when [json.loads] raises on it. *)

Definition newline : ascii := ascii_of_N 10.
Definition nl : string := String newline "".

(** [x or d] on the value of a TEXT column *)
Definition or_text (v : option string) (d : string) : string :=
  match v with
  | None => d
  | Some t => if String.eqb t "" then d else t
  end.

(** [f"{x}"] on the value of a TEXT column *)
Definition format_text (v : option string) : string :=
  match v with
  | None => "None"
  | Some t => t
  end.

(** [json.dumps(v, indent=2)], the text of the value at nesting depth [level] *)
Definition pad (level : nat) : string := text (repeat " "%char (2 * level)).

Definition bracket (level : nat) (open close : string) (items : list string) : string :=
  match items with
  | [] => open +:+ close
  | _ :: _ => open +:+ nl +:+ pad (S level)
              +:+ join ("," +:+ nl +:+ pad (S level)) items
              +:+ nl +:+ pad level +:+ close
  end.

Fixpoint json_dumps_indent (level : nat) (v : PyVal) {struct v} : string :=
  match v with
  | PyNone => "null"
  | PyBool true => "true"
  | PyBool false => "false"
  | PyInt z => str_of_Z z
  | PyStr s => json_quote s
  | PyList l => bracket level "[" "]" (map (json_dumps_indent (S level)) l)
  | PyDict d =>
      bracket level "{" "}"
        (map (fun kv => json_quote (fst kv) +:+ ": " +:+ json_dumps_indent (S level) (snd kv)) d)
  end.

(** [str.splitlines(keepends=True)]: a line ends after a line feed, a
    vertical tab, a form feed, a file, group or record separator, or a
    carriage return with the line feed that follows it, if any. *)
Definition is_line_end (c : ascii) : bool :=
  (((10 <=? code c) && (code c <=? 13)) || ((28 <=? code c) && (code c <=? 30)))%N.

Fixpoint splitlines_from (cur : list ascii) (l : list ascii) : list (list ascii) :=
  match l with
  | [] => match cur with [] => [] | _ :: _ => [rev cur] end
  | c :: rest =>
      if (code c =? 13)%N then
        match rest with
        | d :: rest' =>
            if (code d =? 10)%N then rev (d :: c :: cur) :: splitlines_from [] rest'
            else rev (c :: cur) :: splitlines_from [] rest
        | [] => [rev (c :: cur)]
        end
      else if is_line_end c then rev (c :: cur) :: splitlines_from [] rest
      else splitlines_from (c :: cur) rest
  end.

Definition splitlines (t : list ascii) : list (list ascii) := splitlines_from [] t.

(** [textwrap.indent(t, prefix)]: the prefix goes before every line that
    is not blank. *)
Definition textwrap_indent (t prefix : string) : string :=
  text (flat_map (fun line => match strip isspace line with
                              | [] => line
                              | _ :: _ => chars prefix ++ line
                              end)
          (splitlines (chars t))).

Definition rule : string := text (repeat "="%char 60).

(** The [try] block at the end of [view_entity]: what it prints. *)
Definition view_metadata (loads : string -> option PyVal) (r : Row) : list string :=
  match loads (or_text (row_metadata r) "{}") with
  | Some meta => ["Metadata:"; textwrap_indent (json_dumps_indent 0 meta) "  "]
  | None => ["Metadata: (invalid JSON)"; format_text (row_metadata r)]
  end.

(** [view_entity] returns nothing; the result here is what it prints, one
    text for each call of [print]. *)
Definition view_entity (loads : string -> option PyVal) (entity_id : Z) : M (list string) :=
  let! r := fetch_entity entity_id in
  match r with
  | None => ret ["Not found"]
  | Some r =>
      ret ([nl +:+ rule;
            "ID: " +:+ str_of_Z (row_id r);
            "Type: " +:+ format_text (row_type r);
            "Name: " +:+ format_text (row_name r);
            "Slug: " +:+ format_text (row_slug r);
            "Description:";
            textwrap_indent (text (strip isspace (chars (or_text (row_description r) "")))) "  ";
            "Tags: " +:+ format_text (row_tags r)]
           ++ view_metadata loads r
           ++ ["Created: " +:+ format_text (row_created_at r);
               "Updated: " +:+ format_text (row_updated_at r);
               rule +:+ nl])
  end.

(** The [try] block of [prompt_fields] that reads the metadata of the
    entity being edited. *)
Definition existing_meta (loads : string -> option PyVal) (existing : option Row) : PyVal :=
  match existing with
  | None => PyDict []
  | Some r =>
      match loads (or_text (row_metadata r) "{}") with
      | Some meta => meta
      | None => PyDict []
      end
  end.

(** A store whose one entity has a metadata text that is not a JSON
    document, as an edit of the database file from outside leaves it, and
    a reader of documents that accepts the empty object alone. *)
Definition row_corrupt : Row :=
  mkRow 1 (Some "person") (Some "Ada Lovelace") (Some "ada-lovelace")
    (Some "pioneer") None (Some "{oops")
    (Some "2024-05-01T10:00:00.000001Z") (Some "2024-05-01T10:00:00.000001Z").

Definition store_corrupt : Store := mkStore [row_corrupt] 1 None.

Definition loads_empty_object (t : string) : option PyVal :=
  if String.eqb t "{}" then Some (PyDict []) else None.

(** ** Ranking without rapidfuzz: [rank_candidates]

    Scores are Python floats, IEEE 754 binary64: 53 bits of mantissa,
    exponents up to 1024, every operation rounded to nearest, ties to
    even. *)

Definition fmul : spec_float -> spec_float -> spec_float := SFmul 53 1024.
Definition fdiv : spec_float -> spec_float -> spec_float := SFdiv 53 1024.
Definition flt : spec_float -> spec_float -> bool := SFltb.

(** The float of an integer. *)
Definition float_of_Z (z : Z) : spec_float := binary_normalize 53 1024 z 0 false.

(** The literals [0.0], [1.0], [2.0], [1.2] and the floats of [100] and [120] *)
Definition f0 : spec_float := S754_zero false.
Definition f1 : spec_float := float_of_Z 1.
Definition f2 : spec_float := float_of_Z 2.
Definition f1_2 : spec_float := S754_finite false 5404319552844595 (-52).
Definition f100 : spec_float := float_of_Z 100.
Definition f120 : spec_float := float_of_Z 120.

(** [max(a, b)]: the first argument unless the second is greater. *)
Definition py_max (a b : spec_float) : spec_float := if flt a b then b else a.

(** difflib's [_calculate_ratio]: [2.0 * matches / length], and [1.0]
    for two empty sequences. *)
Definition calculate_ratio (matches length : Z) : spec_float :=
  if length =? 0 then f1 else fdiv (fmul f2 (float_of_Z matches)) (float_of_Z length).

(** [SequenceMatcher(None, a, b).ratio()].  The matching blocks are
    difflib's business: [matching a b] is the number of characters in the
    blocks it finds between [a] and [b]. *)
Definition ratio (matching : string -> string -> nat) (a b : string) : spec_float :=
  calculate_ratio (Z.of_nat (matching a b))
    (Z.of_nat (String.length a) + Z.of_nat (String.length b)).

(** The score of one row, in the branch taken when rapidfuzz is absent. *)
Definition score (matching : string -> string -> nat) (query : string) (r : Row) : spec_float :=
  let name_score := ratio matching (lower query) (lower (or_text (row_name r) "")) in
  let desc_score := ratio matching (lower query) (lower (or_text (row_description r) "")) in
  fmul (py_max (fmul name_score f1_2) desc_score) f100.

(** [l[:n]]: a negative [n] counts from the end. *)
Definition slice_to {A : Type} (n : Z) (l : list A) : list A :=
  if n <? 0 then take (Z.to_nat (Z.of_nat (length l) + n)) l else take (Z.to_nat n) l.

Definition scored (matching : string -> string -> nat) (query : string) (rows : list Row)
    : list (Row * spec_float) :=
  map (fun r => (r, score matching query r)) rows.

(** [rank_candidates] with [HAVE_RAPIDFUZZ] false: [scored.sort(key=lambda
    x: x[1], reverse=True)], a stable sort, then [scored[:top_n]]. *)
Definition rank_candidates (matching : string -> string -> nat) (query : string)
    (rows : list Row) (top_n : Z) : list (Row * spec_float) :=
  slice_to top_n (sort_desc snd flt (scored matching query rows)).

(** A row with no text: name and description are NULL or empty. *)
Definition no_text (r : Row) : bool :=
  String.eqb (or_text (row_name r) "") "" && String.eqb (or_text (row_description r) "") "".

Definition is_nan (x : spec_float) : bool :=
  match x with S754_nan => true | _ => false end.

(** A matcher for examples: the length of the longest common prefix. *)
Fixpoint common_prefix (a b : string) : nat :=
  match a, b with
  | String c a', String d b' => if Ascii.eqb c d then S (common_prefix a' b') else 0%nat
  | _, _ => 0%nat
  end.

(** The place of a float in the order of [flt]: its class, then, with
    the sign, its exponent and its mantissa. *)
Definition fkey (x : spec_float) : Z * Z * Z :=
  match x with
  | S754_zero _ | S754_nan => (0, 0, 0)
  | S754_infinity false => (2, 0, 0)
  | S754_infinity true => (-2, 0, 0)
  | S754_finite false m e => (1, e, Z.pos m)
  | S754_finite true m e => (-1, - e, Z.neg m)
  end.

Definition lexlt (a b : Z * Z * Z) : Prop :=
  let '(a1, a2, a3) := a in
  let '(b1, b2, b3) := b in
  a1 < b1 \/ (a1 = b1 /\ (a2 < b2 \/ (a2 = b2 /\ a3 < b3))).

(** Texts short enough for their lengths to be floats exactly. *)
Definition short_text (t : string) : bool := Z.of_nat (String.length t) <? 2 ^ 52.

Definition short_row (r : Row) : bool :=
  short_text (or_text (row_name r) "") && short_text (or_text (row_description r) "").

(** A float that is a number and not negative. *)
Definition nonneg_float (x : spec_float) : bool :=
  match x with
  | S754_nan => false
  | S754_zero s | S754_infinity s | S754_finite s _ _ => negb s
  end.

(** A finite float above zero. *)
Definition finite_pos (x : spec_float) : bool :=
  match x with
  | S754_finite false _ _ => true
  | _ => false
  end.

#[local] Instance spec_float_eq_dec : EqDecision spec_float.
Proof. solve_decision. Defined.

(** The candidates of a ranking that have the score [v]. *)
Definition with_score (v : spec_float) (l : list (Row * spec_float)) : list (Row * spec_float) :=
  List.filter (fun c => bool_decide (snd c = v)) l.

(** An entity with no text at all, and one with a name. *)
Definition row_blank : Row :=
  mkRow 7 (Some "note") (Some "") (Some "") None None (Some "{}")
    (Some "2024-05-01T10:00:00.000001Z") (Some "2024-05-01T10:00:00.000001Z").

Definition row_ada : Row :=
  mkRow 1 (Some "person") (Some "Ada Lovelace") (Some "ada-lovelace") (Some "pioneer") None
    (Some "{}") (Some "2024-05-01T10:00:00.000001Z") (Some "2024-05-01T10:00:00.000001Z").

(** ** Shapes of texts, for the properties below *)

(** A character a slug is made of: a lowercase letter, a digit or the dash. *)
Definition slug_char (c : ascii) : bool := is_lower c || is_digit c || is_dash c.

(** A text of 7-bit characters. *)
Definition ascii_only (t : string) : bool := forallb (fun c => (code c <? 128)%N) (chars t).

(** The first character of a text is not the dash. *)
Definition no_leading_dash (l : list ascii) : bool :=
  match l with
  | c :: _ => negb (is_dash c)
  | [] => true
  end.

(** The fields of one more person, for examples. *)
Definition grace : gmap string PyVal :=
  {[ "type" := PyStr "person"; "name" := PyStr "Grace Hopper" ]}.

(** ** What the schema and the triggers keep true of a store *)

(** [id INTEGER PRIMARY KEY]: the rows are in rowid order, no rowid twice. *)
Definition ids_increasing (rows : list Row) : Prop :=
  StronglySorted Z.lt (map row_id rows).

(** [type], [name], [created_at] and [updated_at] are NOT NULL. *)
Definition required_present (r : Row) : bool :=
  negb (is_null (row_type r)) && negb (is_null (row_name r))
  && negb (is_null (row_created_at r)) && negb (is_null (row_updated_at r)).

(** [slug TEXT UNIQUE]: no two rows share a slug. *)
Definition slugs_distinct (rows : list Row) : Prop :=
  forall (i j : nat) (r1 r2 : Row),
    i <> j -> rows !! i = Some r1 -> rows !! j = Some r2 ->
    same_text (row_slug r1) (row_slug r2) = false.

(** The full-text index, where there is one, holds the document of every
    row and nothing else. *)
Definition index_in_sync (s : Store) : Prop :=
  match entities_fts s with
  | None => True
  | Some ix => ix = map doc_of (entities s)
  end.

Record consistent (s : Store) : Prop := mkConsistent {
  consistent_ids : ids_increasing (entities s);
  consistent_required : Forall (fun r => required_present r = true) (entities s);
  consistent_slugs : slugs_distinct (entities s);
  consistent_index : index_in_sync s
}.

(** The row of [store_ada]. *)
Definition row_ada_stored : Row :=
  mkRow 1 (Some "person") (Some "Ada Lovelace") (Some "ada-lovelace") (Some "mathematician")
    None (Some "{}") (Some "2024-05-01T10:00:00.000001Z") (Some "2024-05-01T10:00:00.000001Z").

(** What [UPDATE ... WHERE id = rid] makes of one row. *)
Definition rewritten (sets : list (Column * option string)) (rid : Z) (r : Row) : Row :=
  if row_id r =? rid then apply_sets sets r else r.

(** [isinstance(v, str)] *)
Definition is_str (v : PyVal) : bool :=
  match v with PyStr _ => true | _ => false end.

(** A store with two entities, Ada with id 1 and Grace with id 2. *)
Definition store_two : Store :=
  snd (add_entity grace "2024-05-01T10:00:02.000001Z" store_ada).

(** ** Choosing a candidate: [format_row_short], [prompt], [fuzzy_select_loop]

    The terminal is the list of the lines still to be read from standard
    input, none with its line feed, and the list of what has been
    written: a text for each [print], a prompt for each [input]. *)

Inductive Output : Type :=
| Printed (t : string)
| Asked (t : string).

(** [s.split('\n', 1)[0]] *)
Fixpoint first_line (l : list ascii) : list ascii :=
  match l with
  | [] => []
  | c :: r => if Ascii.eqb c newline then [] else c :: first_line r
  end.

(** The separator of [format_row_short], the eight bytes the source file
    holds between the name and the description. *)
Definition row_separator : string :=
  text (map ascii_of_N [195; 162; 226; 130; 172; 226; 128; 157]%N).

Definition format_row_short (r : Row) : string :=
  "[" +:+ str_of_Z (row_id r) +:+ "] (" +:+ or_text (row_type r) "" +:+ ") "
  +:+ or_text (row_name r) "" +:+ " " +:+ row_separator +:+ " "
  +:+ text (first_line (chars (or_text (row_description r) ""))).

(** [f"{x:.2f}"]: the decimal with two digits after the point nearest to
    the float, the even one of two equally near. *)
Definition two_digits (n : Z) : string :=
  str_of_Z (n / 10) +:+ str_of_Z (n mod 10).

Definition hundredths (m : positive) (e : Z) : Z :=
  match e with
  | Z.neg k =>
      let num := Z.pos m * 100 in
      let den := 2 ^ Z.pos k in
      let q := num / den in
      let r := num mod den in
      match 2 * r ?= den with
      | Lt => q
      | Gt => q + 1
      | Eq => if Z.even q then q else q + 1
      end
  | _ => Z.pos m * 2 ^ e * 100
  end.

Definition format_2f (x : spec_float) : string :=
  match x with
  | S754_nan => "nan"
  | S754_infinity s => if s then "-inf" else "inf"
  | S754_zero s => if s then "-0.00" else "0.00"
  | S754_finite s m e =>
      let n := hundredths m e in
      (if s then "-" else "") +:+ str_of_Z (n / 100) +:+ "." +:+ two_digits (n mod 100)
  end.

(** [s.isdigit()] on 7-bit text *)
Definition isdigit (s : string) : bool :=
  match chars s with
  | [] => false
  | l => forallb is_digit l
  end.

(** [int(s)] for a text of digits.  [max_digits] is
    [sys.get_int_max_str_digits()]: a longer text is refused with
    ValueError; 0 is no limit. *)
Definition int_of_digits (max_digits : nat) (s : string) : option Z :=
  if negb (Nat.eqb max_digits 0) && Nat.ltb max_digits (String.length s) then None
  else Z.of_uint <$> NilZero.uint_of_string s.

(** What [fuzzy_select_loop] comes to: a value returned, or an exception. *)
Inductive Selection : Type :=
| Returned (v : option Z)
| RaisedEOFError
| RaisedValueError.

Definition str_in_list (s : string) (l : list string) : bool :=
  existsb (String.eqb s) l.

Definition choose_prompt : string := "Choose number to open, or command: ".

(** One line of the candidate list. *)
Definition candidate_line (idx : nat) (c : Row * spec_float) : string :=
  str_of_Z (Z.of_nat idx) +:+ ". " +:+ format_row_short (fst c)
  +:+ " (score=" +:+ format_2f (snd c) +:+ ")".

Fixpoint candidate_lines (idx : nat) (scored : list (Row * spec_float)) : list Output :=
  match scored with
  | [] => []
  | c :: rest => Printed (candidate_line idx c) :: candidate_lines (S idx) rest
  end.

(** The [while True] loop: one turn for each line read.  At the end of
    input [prompt] prints an empty line and lets EOFError through. *)
Fixpoint choose (max_digits : nat) (scored : list (Row * spec_float)) (stdin : list string)
    : Selection * list string * list Output :=
  match stdin with
  | [] => (RaisedEOFError, [], [Asked choose_prompt; Printed ""])
  | line :: rest =>
      let cmd := text (strip isspace (chars line)) in
      let again (out : list Output) :=
        let '(v, unread, out') := choose max_digits scored rest in
        (v, unread, Asked choose_prompt :: out ++ out') in
      if String.eqb cmd "" then again []
      else if str_in_list (lower cmd) ["a"; "add"] then
        (Returned (Some (-1)), rest, [Asked choose_prompt])
      else if str_in_list (lower cmd) ["s"; "search"] then
        (Returned None, rest, [Asked choose_prompt])
      else if str_in_list (lower cmd) ["q"] || str_in_list (lower cmd) ["quit"; "exit"; ":q"]
      then (RaisedEOFError, rest, [Asked choose_prompt])
      else if isdigit cmd then
        match int_of_digits max_digits cmd with
        | None => (RaisedValueError, rest, [Asked choose_prompt])
        | Some n =>
            if (1 <=? n) && (n <=? Z.of_nat (length scored)) then
              match scored !! Z.to_nat (n - 1) with
              | Some c => (Returned (Some (row_id (fst c))), rest, [Asked choose_prompt])
              | None => again [Printed "Invalid choice"]
              end
            else again [Printed "Invalid choice"]
        end
      else again [Printed "Invalid choice"]
  end.

Definition fuzzy_select_loop (max_digits : nat) (scored : list (Row * spec_float))
    (stdin : list string) : Selection * list string * list Output :=
  match scored with
  | [] => (Returned None, stdin, [])
  | _ :: _ =>
      let '(v, unread, out) := choose max_digits scored stdin in
      (v, unread,
       candidate_lines 1 scored
       ++ [Printed "a) Add new entity"; Printed "s) Search again"; Printed "q) Quit"]
       ++ out)
  end.

(** A text without a line feed. *)
Definition single_line (t : string) : bool :=
  forallb (fun c => negb (Ascii.eqb c newline)) (chars t).

(** A text of printable 7-bit characters: no control character, no line
    break, nothing above 126. *)
Definition printable_char (c : ascii) : bool := ((32 <=? code c) && (code c <=? 126))%N.
Definition printable (t : string) : bool := forallb printable_char (chars t).

(** ** Where the model of LIKE is the LIKE of SQLite

    SQLite reads the pattern and the text of a LIKE up to their first NUL
    character and refuses a pattern of more than 50000 bytes
    (SQLITE_MAX_LIKE_PATTERN_LENGTH); [like_match] does neither.  The
    properties of the scan are stated for texts without NUL and patterns
    within the limit. *)
Definition nul_free (t : string) : bool :=
  forallb (fun c => negb (code c =? 0)%N) (chars t).

Definition nul_free_field (v : option string) : bool :=
  match v with
  | None => true
  | Some t => nul_free t
  end.

Definition nul_free_row (r : Row) : bool :=
  nul_free_field (row_name r) && nul_free_field (row_description r)
  && nul_free_field (row_tags r).

Definition max_like_pattern : Z := 50000.

(** The pattern [%q%] is within the limit. *)
Definition like_pattern_fits (q : string) : bool :=
  Z.of_nat (String.length ("%" +:+ q +:+ "%")) <=? max_like_pattern.

(** ** A reader of JSON documents, for examples

    [json.loads] is a parameter of the readers above.  [json_loads] is one
    such reader, enough for the documents [json_dumps] writes: null, true,
    false, integers, strings with their escapes, arrays and objects. *)

Definition json_space (c : ascii) : bool :=
  (code c =? 32)%N || (code c =? 9)%N || (code c =? 10)%N || (code c =? 13)%N.

Fixpoint skip_spaces (l : list ascii) : list ascii :=
  match l with
  | c :: r => if json_space c then skip_spaces r else l
  | [] => []
  end.

Definition hex_value (c : ascii) : option N :=
  let n := code c in
  if ((48 <=? n) && (n <=? 57))%N then Some (n - 48)%N
  else if ((97 <=? n) && (n <=? 102))%N then Some (n - 87)%N
  else if ((65 <=? n) && (n <=? 70))%N then Some (n - 55)%N
  else None.

(** The characters of a string literal after its opening quote, and what
    follows its closing quote. *)
Fixpoint read_string (l : list ascii) : option (list ascii * list ascii) :=
  match l with
  | [] => None
  | c :: r =>
      if Ascii.eqb c dquote then Some ([], r)
      else if Ascii.eqb c backslash then
        match r with
        | e :: r' =>
            let plain (d : ascii) :=
              match read_string r' with
              | Some (t, rest) => Some (d :: t, rest)
              | None => None
              end in
            if Ascii.eqb e dquote then plain dquote
            else if Ascii.eqb e backslash then plain backslash
            else if Ascii.eqb e "/" then plain "/"%char
            else if Ascii.eqb e "n" then plain (ascii_of_N 10)
            else if Ascii.eqb e "r" then plain (ascii_of_N 13)
            else if Ascii.eqb e "t" then plain (ascii_of_N 9)
            else if Ascii.eqb e "b" then plain (ascii_of_N 8)
            else if Ascii.eqb e "f" then plain (ascii_of_N 12)
            else if Ascii.eqb e "u" then
              match r' with
              | h1 :: h2 :: h3 :: h4 :: r'' =>
                  match hex_value h1, hex_value h2, hex_value h3, hex_value h4 with
                  | Some a, Some b, Some c3, Some d =>
                      let n := (((a * 16 + b) * 16 + c3) * 16 + d)%N in
                      if (n <? 256)%N then
                        match read_string r'' with
                        | Some (t, rest) => Some (ascii_of_N n :: t, rest)
                        | None => None
                        end
                      else None
                  | _, _, _, _ => None
                  end
              | _ => None
              end
            else None
        | [] => None
        end
      else
        match read_string r with
        | Some (t, rest) => Some (c :: t, rest)
        | None => None
        end
  end.

(** The digits a text starts with, as a number, and the rest. *)
Fixpoint read_digits (acc : Z) (l : list ascii) : Z * list ascii :=
  match l with
  | c :: r => if is_digit c then read_digits (acc * 10 + Z.of_N (code c - 48)) r else (acc, l)
  | [] => (acc, [])
  end.

Fixpoint read_value (fuel : nat) (l : list ascii) : option (PyVal * list ascii) :=
  match fuel with
  | O => None
  | S fuel =>
      match skip_spaces l with
      | [] => None
      | c :: r =>
          if Ascii.eqb c dquote then
            match read_string r with
            | Some (t, rest) => Some (PyStr (text t), rest)
            | None => None
            end
          else if Ascii.eqb c "[" then
            match skip_spaces r with
            | d :: r' => if Ascii.eqb d "]" then Some (PyList [], r')
                         else match read_items fuel r with
                              | Some (vs, rest) => Some (PyList vs, rest)
                              | None => None
                              end
            | [] => None
            end
          else if Ascii.eqb c "{" then
            match skip_spaces r with
            | d :: r' => if Ascii.eqb d "}" then Some (PyDict [], r')
                         else match read_members fuel r with
                              | Some (kvs, rest) => Some (PyDict kvs, rest)
                              | None => None
                              end
            | [] => None
            end
          else if Ascii.eqb c "-" then
            match r with
            | d :: _ => if is_digit d then
                          let (n, rest) := read_digits 0 r in Some (PyInt (- n), rest)
                        else None
            | [] => None
            end
          else if is_digit c then
            let (n, rest) := read_digits 0 (c :: r) in Some (PyInt n, rest)
          else if starts_with (chars "null") (c :: r) then Some (PyNone, skipn 4 (c :: r))
          else if starts_with (chars "true") (c :: r) then Some (PyBool true, skipn 4 (c :: r))
          else if starts_with (chars "false") (c :: r)
          then Some (PyBool false, skipn 5 (c :: r))
          else None
      end
  end
with read_items (fuel : nat) (l : list ascii) : option (list PyVal * list ascii) :=
  match fuel with
  | O => None
  | S fuel =>
      match read_value fuel l with
      | Some (v, rest) =>
          match skip_spaces rest with
          | c :: r =>
              if Ascii.eqb c "]" then Some ([v], r)
              else if Ascii.eqb c "," then
                match read_items fuel r with
                | Some (vs, rest') => Some (v :: vs, rest')
                | None => None
                end
              else None
          | [] => None
          end
      | None => None
      end
  end
with read_members (fuel : nat) (l : list ascii)
    : option (list (string * PyVal) * list ascii) :=
  match fuel with
  | O => None
  | S fuel =>
      match skip_spaces l with
      | q :: r =>
          if Ascii.eqb q dquote then
            match read_string r with
            | Some (k, rest) =>
                match skip_spaces rest with
                | c :: r' =>
                    if Ascii.eqb c ":" then
                      match read_value fuel r' with
                      | Some (v, rest') =>
                          match skip_spaces rest' with
                          | d :: r'' =>
                              if Ascii.eqb d "}" then Some ([(text k, v)], r'')
                              else if Ascii.eqb d "," then
                                match read_members fuel r'' with
                                | Some (kvs, rest'') => Some ((text k, v) :: kvs, rest'')
                                | None => None
                                end
                              else None
                          | [] => None
                          end
                      | None => None
                      end
                    else None
                | [] => None
                end
            | None => None
            end
          else None
      | [] => None
      end
  end.

Definition json_loads (t : string) : option PyVal :=
  match read_value (2 * String.length t + 2) (chars t) with
  | Some (v, rest) => match skip_spaces rest with [] => Some v | _ :: _ => None end
  | None => None
  end.

(** A value made of 7-bit text: what [json_dumps] writes of it is what
    [json.dumps] writes. *)
Fixpoint ascii_val (v : PyVal) : bool :=
  match v with
  | PyStr t => ascii_only t
  | PyList l => forallb ascii_val l
  | PyDict d => forallb (fun kv => ascii_only (fst kv) && ascii_val (snd kv)) d
  | _ => true
  end.

(** Ada with metadata. *)
Definition ada_meta : gmap string PyVal :=
  <["metadata" := PyDict [("born", PyInt 1815); ("fields", PyList [PyStr "mathematics"]);
                          ("note", PyStr ("said " +:+ String dquote "poetical science"
                                          +:+ String dquote ""))]]> ada.

(** * Properties of the record store *)

Lemma store_eta (s : Store) :
  mkStore (entities s) (sqlite_sequence s) (entities_fts s) = s.
Proof. by destruct s. Qed.

Lemma filter_absent (rid : Z) (rows : list Row) :
  Forall (fun r => row_id r ≠ rid) rows ->
  filter (fun r => row_id r ≠ rid) rows = rows /\
  filter (fun r => row_id r = rid) rows = [].
Proof.
  induction 1 as [|r rows Hr _ [IH1 IH2]]; [done|].
  rewrite !filter_cons. destruct (decide (row_id r ≠ rid)); [|done].
  destruct (decide (row_id r = rid)); [done|]. by rewrite IH1, IH2.
Qed.

Lemma update_rows_absent sets rid others rows ix :
  Forall (fun r => row_id r ≠ rid) rows ->
  update_rows sets rid others rows ix = Ok (rows, ix).
Proof.
  induction 1 as [|r rows Hr _ IH]; simpl; [done|].
  apply Z.eqb_neq in Hr. by rewrite Hr, IH.
Qed.

Lemma sql_update_absent sets rid s :
  absent rid s -> sql_update sets rid s = (Ok tt, s).
Proof.
  intros H. unfold sql_update. rewrite update_rows_absent by done.
  by rewrite store_eta.
Qed.

Lemma sql_delete_absent rid s :
  absent rid s -> sql_delete rid s = (Ok tt, s).
Proof.
  intros H. unfold sql_delete. destruct (filter_absent rid _ H) as [-> ->].
  simpl. by rewrite store_eta.
Qed.

(** C1, as the code has it: [update_entity] and [delete_entity] on an id
    that no row carries raise nothing for want of the row.  The DELETE
    returns normally and the UPDATE does whenever its parameters bind;
    the store is left as it was. *)
Theorem update_delete_absent_id_silent (s : Store) (entity_id : Z)
    (fields : gmap string PyVal) (now : string) :
  int64_ok entity_id = true ->
  absent entity_id s ->
  update_entity entity_id fields now s =
    (match bind_all (set_clause fields now) with
     | Ok _ => Ok tt
     | Raise e => Raise e
     end, s)
  /\ delete_entity entity_id s = (Ok tt, s).
Proof.
  intros Hid Habs. unfold update_entity, delete_entity, bind, lift, bind_int.
  rewrite Hid. split.
  - destruct (bind_all _); [|done]. by apply sql_update_absent.
  - by apply sql_delete_absent.
Qed.

Lemma update_delete_absent_id_silent_witness :
  update_entity 2 {[ "description" := PyStr "pioneer" ]} "2024-05-02T10:00:00.000001Z"
      store_ada = (Ok tt, store_ada)
  /\ delete_entity 2 store_ada = (Ok tt, store_ada).
Proof.
  assert (Ha : absent 2 store_ada) by (repeat constructor; vm_compute; discriminate).
  exact (update_delete_absent_id_silent store_ada 2
           {[ "description" := PyStr "pioneer" ]} "2024-05-02T10:00:00.000001Z"
           eq_refl Ha).
Defined.

(** C1 fails as stated: with one row of id 1 in the store, updating and
    deleting id 2 both return normally instead of failing. *)
Lemma update_delete_absent_id_counterexample :
  fst (fetch_entity 2 store_ada) = Ok None
  /\ fst (update_entity 2 {[ "description" := PyStr "pioneer" ]}
            "2024-05-02T10:00:00.000001Z" store_ada) = Ok tt
  /\ fst (delete_entity 2 store_ada) = Ok tt.
Proof. by vm_compute. Qed.

(** *** [add_entity] *)

Lemma sql_insert_raise ty name slug d tg m c u s e s' :
  sql_insert ty name slug d tg m c u s = (Raise e, s') ->
  s' = s /\ exists k, e = IntegrityError k.
Proof.
  unfold sql_insert.
  repeat match goal with |- context [if ?b then _ else _] => destruct b end;
    intros [= <- <-]; eauto.
Qed.

Lemma sql_insert_ok ty name slug d tg m c u s :
  slug_taken slug (entities s) = false ->
  sql_insert (Some ty) (Some name) slug d tg m (Some c) (Some u) s =
    (Ok (next_rowid s),
     inserted s (mkRow (next_rowid s) (Some ty) (Some name) slug d tg m (Some c) (Some u))).
Proof. intros H. unfold sql_insert. simpl. by rewrite H. Qed.

(** A failed [add_entity] leaves the store as it found it. *)
Lemma add_entity_raise fields now s e s' :
  add_entity fields now s = (Raise e, s') -> s' = s.
Proof.
  unfold add_entity, bind, lift.
  repeat match goal with
         | |- context [match ?r with Ok _ => _ | Raise _ => _ end] => destruct r
         end; try (by intros [= <- <-]).
  intros H. by apply sql_insert_raise in H as [-> _].
Qed.

Lemma add_entity_run fields now s sv ty name slug d tg :
  entity_slug fields = Ok sv ->
  bind_text (dict_get fields "type") = Ok ty ->
  bind_text (dict_get fields "name") = Ok name ->
  bind_text sv = Ok slug ->
  bind_text (dict_get fields "description") = Ok d ->
  bind_text (dict_get fields "tags") = Ok tg ->
  add_entity fields now s =
    sql_insert ty name slug d tg
      (Some (json_dumps (py_or (dict_get fields "metadata") (PyDict []))))
      (Some now) (Some now) s.
Proof.
  intros H1 H2 H3 H4 H5 H6. unfold add_entity, bind, lift.
  by rewrite H1, H2, H3, H4, H5, H6.
Qed.

(** C2, as the code has it: when [type] or [name] is missing (the key is
    absent or holds [None]) [add_entity] raises and the store is unchanged;
    the exception is the IntegrityError of a NOT NULL column whenever the
    parameters bind.  Emptiness is not among the conditions. *)
Theorem add_entity_missing_required (s : Store) (fields : gmap string PyVal) (now : string) :
  dict_get fields "type" = PyNone \/ dict_get fields "name" = PyNone ->
  exists e, add_entity fields now s = (Raise e, s)
    /\ (params_bind fields -> exists col, e = IntegrityError (NotNull col)).
Proof.
  intros Hmiss.
  destruct (add_entity fields now s) as [[rid|e] s'] eqn:Hrun.
  - exfalso. revert Hrun. unfold add_entity, bind, lift.
    repeat match goal with
           | |- context [match ?r with Ok _ => _ | Raise _ => _ end] =>
               let E := fresh "E" in destruct r eqn:E
           end; try discriminate.
    unfold sql_insert.
    destruct Hmiss as [Hm|Hm]; rewrite Hm in *; simplify_eq/=; try done.
    by destruct (is_null _).
  - pose proof (add_entity_raise _ _ _ _ _ Hrun) as ->.
    exists e. split; [done|].
    intros [(sv & slug & Hs & Hb) Hall].
    rewrite !Forall_cons in Hall.
    destruct Hall as ([ty Hty] & [nm Hnm] & [d Hd] & [tg Htg] & _).
    rewrite (add_entity_run _ _ _ _ _ _ _ _ _ Hs Hty Hnm Hb Hd Htg) in Hrun.
    unfold sql_insert in Hrun.
    repeat match type of Hrun with
           | context [if ?b then _ else _] => destruct b eqn:?
           end; simplify_eq; eauto.
    destruct Hmiss as [Hm|Hm]; rewrite Hm in *; simplify_eq/=.
Qed.

Lemma add_entity_missing_required_witness :
  exists e, add_entity {[ "name" := PyStr "Ada Lovelace" ]} "2024-05-01T10:00:00.000001Z"
              store_ada = (Raise e, store_ada)
    /\ (params_bind {[ "name" := PyStr "Ada Lovelace" ]} ->
        exists col, e = IntegrityError (NotNull col)).
Proof.
  exact (add_entity_missing_required store_ada {[ "name" := PyStr "Ada Lovelace" ]}
           "2024-05-01T10:00:00.000001Z" (or_introl eq_refl)).
Defined.

(** C2 fails as stated: empty strings for [type] and [name] pass, and the
    row is written. *)
Lemma add_entity_empty_required_counterexample :
  add_entity {[ "type" := PyStr ""; "name" := PyStr "" ]} "2024-05-01T10:00:00.000001Z"
    empty_store
  = (Ok 1,
     mkStore [mkRow 1 (Some "") (Some "") (Some "") None None (Some "{}")
                (Some "2024-05-01T10:00:00.000001Z") (Some "2024-05-01T10:00:00.000001Z")]
       1 None).
Proof. by vm_compute. Qed.

Lemma add_entity_ok_inv fields now s rid s' :
  add_entity fields now s = (Ok rid, s') ->
  exists sv ty name slug d tg,
    entity_slug fields = Ok sv /\ bind_text sv = Ok slug
    /\ bind_text (dict_get fields "type") = Ok (Some ty)
    /\ bind_text (dict_get fields "name") = Ok (Some name)
    /\ bind_text (dict_get fields "description") = Ok d
    /\ bind_text (dict_get fields "tags") = Ok tg
    /\ slug_taken slug (entities s) = false
    /\ rid = next_rowid s
    /\ s' = inserted s
              (mkRow rid (Some ty) (Some name) slug d tg
                 (Some (json_dumps (py_or (dict_get fields "metadata") (PyDict []))))
                 (Some now) (Some now)).
Proof.
  unfold add_entity, bind, lift.
  destruct (entity_slug fields) as [sv|] eqn:E1; [|done].
  destruct (bind_text (dict_get fields "type")) as [ty|] eqn:E2; [|done].
  destruct (bind_text (dict_get fields "name")) as [nm|] eqn:E3; [|done].
  destruct (bind_text sv) as [slug|] eqn:E4; [|done].
  destruct (bind_text (dict_get fields "description")) as [d|] eqn:E5; [|done].
  destruct (bind_text (dict_get fields "tags")) as [tg|] eqn:E6; [|done].
  unfold sql_insert. destruct ty as [ty|]; [|done]. destruct nm as [nm|]; [|done].
  simpl. destruct (slug_taken slug (entities s)) eqn:E7; [done|].
  intros [= <- <-]. by exists sv, ty, nm, slug, d, tg.
Qed.

Lemma row_id_le_max (rows : list Row) (r : Row) :
  r ∈ rows -> row_id r <= max_rowid rows.
Proof.
  induction 1 as [r rows|r r' rows _ IH]; simpl; lia.
Qed.

Lemma next_rowid_fresh (s : Store) : absent (next_rowid s) s.
Proof.
  apply Forall_forall. intros r Hr%row_id_le_max. unfold next_rowid. lia.
Qed.

Lemma next_rowid_pos (s : Store) : 1 <= next_rowid s.
Proof.
  unfold next_rowid. assert (0 <= max_rowid (entities s)); [|lia].
  induction (entities s); simpl; lia.
Qed.

(** The row just inserted is the one a SELECT by its rowid reads back. *)
Lemma select_inserted (s : Store) (r : Row) :
  row_id r = next_rowid s ->
  fetchone (sql_select_by_id (row_id r) (inserted s r)) = Some r.
Proof.
  intros Hid. unfold sql_select_by_id, inserted. simpl.
  pose proof (next_rowid_fresh s) as Hf. rewrite <- Hid in Hf.
  rewrite filter_app. destruct (filter_absent _ _ Hf) as [_ ->].
  simpl. rewrite filter_cons. by rewrite decide_True.
Qed.

Lemma bind_text_plain (v : PyVal) : plain v -> bind_text v = Ok (column_of v).
Proof. by intros [->|[t ->]]. Qed.

Lemma metadata_text_mapping (v : PyVal) :
  mapping v -> py_or v (PyDict []) = PyDict (mapping_of v).
Proof. intros [->|[d ->]]; [done|]. by destruct d. Qed.

Lemma or_text_json_object (d : list (string * PyVal)) :
  or_text (Some (json_dumps (PyDict d))) "{}" = json_dumps (PyDict d).
Proof. done. Qed.



Lemma slug_taken_app slug rows rows' :
  slug_taken slug (rows ++ rows') = slug_taken slug rows || slug_taken slug rows'.
Proof. unfold slug_taken. apply existsb_app. Qed.

Lemma same_text_refl (t : string) : same_text (Some t) (Some t) = true.
Proof. simpl. apply String.eqb_refl. Qed.



(** *** [update_entity] *)

Lemma fetch_entity_some rid s r :
  fetch_entity rid s = (Ok (Some r), s) <->
  int64_ok rid = true /\ head (filter (fun x => row_id x = rid) (entities s)) = Some r.
Proof.
  unfold fetch_entity, bind, lift, bind_int, fetchone, sql_select_by_id.
  destruct (int64_ok rid); split; try done.
  - by intros [= ->].
  - by intros [_ ->].
  - by intros [? _].
Qed.

Lemma row_id_apply_sets sets r : row_id (apply_sets sets r) = row_id r.
Proof.
  unfold apply_sets. revert r. induction sets as [|[c v] sets IH]; intros r; simpl; [done|].
  rewrite IH. by destruct c.
Qed.

Lemma col_set_col_ne c c' v r : c <> c' -> col c (set_col r (c', v)) = col c r.
Proof. by destruct c, c'. Qed.

Lemma col_apply_sets c sets r : c ∉ sets.*1 -> col c (apply_sets sets r) = col c r.
Proof.
  unfold apply_sets. revert r. induction sets as [|[c' v] sets IH]; intros r Hc; simpl; [done|].
  simpl in Hc. apply not_elem_of_cons in Hc as [Hne Hc].
  rewrite IH by done. by apply col_set_col_ne.
Qed.

Lemma update_rows_head sets rid others rows ix rows' ix' :
  update_rows sets rid others rows ix = Ok (rows', ix') ->
  head (filter (fun x => row_id x = rid) rows')
  = apply_sets sets <$> head (filter (fun x => row_id x = rid) rows).
Proof.
  revert ix rows' ix'. induction rows as [|r rows IH]; intros ix rows' ix' H; simpl in H.
  - by injection H as <- <-.
  - destruct (row_id r =? rid) eqn:E.
    + apply Z.eqb_eq in E.
      destruct (not_null_violation sets); [done|].
      destruct (assigns_slug sets && _); [done|].
      destruct (update_rows _ _ _ rows _) as [[rest' ix'']|]; [|done].
      injection H as <- <-. rewrite !filter_cons.
      rewrite decide_True by (by rewrite row_id_apply_sets).
      by rewrite decide_True.
    + apply Z.eqb_neq in E.
      destruct (update_rows _ _ _ rows _) as [[rest' ix'']|] eqn:E'; [|done].
      injection H as <- <-. rewrite !filter_cons.
      rewrite !decide_False by done. by eapply IH.
Qed.

Lemma update_rows_unchecked sets rid others rows ix :
  not_null_violation sets = None -> assigns_slug sets = false ->
  exists rows' ix', update_rows sets rid others rows ix = Ok (rows', ix').
Proof.
  intros Hn Hs. revert ix. induction rows as [|r rows IH]; intros ix; simpl; [by eauto|].
  rewrite Hn, Hs. simpl.
  destruct (row_id r =? rid).
  - destruct (IH (entities_au r (apply_sets sets r) ix)) as (rows' & ix' & ->). by eauto.
  - destruct (IH ix) as (rows' & ix' & ->). by eauto.
Qed.

Lemma bind_all_columns l sets : bind_all l = Ok sets -> sets.*1 = l.*1.
Proof.
  revert sets. induction l as [|[c v] l IH]; intros sets H; simpl in H.
  - by injection H as <-.
  - destruct (bind_text v); [|done]. destruct (bind_all l); [|done].
    injection H as <-. simpl. f_equal. by apply IH.
Qed.

Lemma supplied_delete fields k k' :
  fields !! k = Some PyNone -> supplied (delete k fields) k' = supplied fields k'.
Proof.
  intros H. unfold supplied. destruct (decide (k = k')) as [<-|Hne].
  - by rewrite lookup_delete_eq, H.
  - by rewrite lookup_delete_ne.
Qed.

Lemma set_clause_delete fields now k :
  fields !! k = Some PyNone -> set_clause (delete k fields) now = set_clause fields now.
Proof.
  intros H. unfold set_clause, text_columns. simpl.
  by rewrite !(supplied_delete _ _ _ H).
Qed.

Lemma set_clause_skips fields now k c :
  (k, c) ∈ field_columns -> supplied fields k = None -> c ∉ (set_clause fields now).*1.
Proof.
  intros Hin Hnone. unfold field_columns, text_columns in Hin. simpl in Hin.
  unfold set_clause, text_columns. simpl.
  rewrite !elem_of_cons, elem_of_nil in Hin.
  destruct Hin as [?|[?|[?|[?|[?|[?|[]]]]]]]; simplify_eq;
    rewrite Hnone;
    repeat match goal with
           | |- context [supplied fields ?x] => destruct (supplied fields x)
           end; simpl;
    repeat (apply not_elem_of_cons; split; [done|]); apply not_elem_of_nil.
Qed.

Lemma set_clause_all_none fields now :
  (forall k v, fields !! k = Some v -> v = PyNone) ->
  set_clause fields now = [(c_updated_at, PyStr now)].
Proof.
  intros H.
  assert (Hs : forall k, supplied fields k = None).
  { intros k. unfold supplied. destruct (fields !! k) as [v|] eqn:E; [|done].
    by rewrite (H _ _ E). }
  unfold set_clause, text_columns. simpl. by rewrite !Hs.
Qed.

Lemma update_entity_run entity_id fields now s :
  int64_ok entity_id = true ->
  update_entity entity_id fields now s =
    match bind_all (set_clause fields now) with
    | Ok sets => sql_update sets entity_id s
    | Raise e => (Raise e, s)
    end.
Proof.
  intros H. unfold update_entity, bind, lift, bind_int. rewrite H.
  by destruct (bind_all _).
Qed.

(** What a row looks like after an update that got as far as the table:
    the columns outside the SET clause are the old ones. *)
Lemma update_entity_frame entity_id fields now s r c :
  fetch_entity entity_id s = (Ok (Some r), s) ->
  c ∉ (set_clause fields now).*1 ->
  exists r',
    fst (fetch_entity entity_id (snd (update_entity entity_id fields now s))) = Ok (Some r')
    /\ col c r' = col c r.
Proof.
  intros Hf Hc. pose proof Hf as [Hid Hhead]%fetch_entity_some.
  rewrite update_entity_run by done.
  destruct (bind_all (set_clause fields now)) as [sets|e] eqn:Hb.
  - unfold sql_update.
    destruct (update_rows _ _ _ _ _) as [[rows' ix']|e] eqn:Hu.
    + apply update_rows_head in Hu. rewrite Hhead in Hu. simpl in Hu.
      exists (apply_sets sets r). split.
      * simpl. unfold fetch_entity, bind, lift, bind_int, fetchone, sql_select_by_id.
        rewrite Hid. simpl. by rewrite Hu.
      * apply col_apply_sets. by rewrite (bind_all_columns _ _ Hb).
    + exists r. simpl. by rewrite Hf.
  - exists r. simpl. by rewrite Hf.
Qed.


Example update_none_keeps_name :
  fst ((let! _ := update_entity 1 {[ "name" := PyNone; "description" := PyStr "pioneer" ]}
                    "2024-05-02T10:00:00.000001Z" in
        fetch_entity 1) store_ada)
  = Ok (Some (mkRow 1 (Some "person") (Some "Ada Lovelace") (Some "ada-lovelace")
                (Some "pioneer") None (Some "{}")
                (Some "2024-05-01T10:00:00.000001Z") (Some "2024-05-02T10:00:00.000001Z"))).
Proof. by vm_compute. Qed.

(** * Properties of the capability detector *)

Lemma starts_with_contains p t : starts_with p t = true -> contains p t = true.
Proof. intros H. destruct t; simpl; by rewrite H. Qed.

Lemma contains_cons p c t : contains p t = true -> contains p (c :: t) = true.
Proof. intros H. simpl. rewrite H. apply orb_true_r. Qed.

Lemma contains_app_r p q t : contains (p ++ q) t = true -> contains q t = true.
Proof.
  revert t. induction p as [|c p IH]; intros t; [done|].
  intros H. apply IH. clear IH. induction t as [|d t IHt]; simpl in H; [done|].
  apply orb_true_iff in H as [H|H].
  - apply andb_true_iff in H as [_ H]. by apply contains_cons, starts_with_contains.
  - by apply contains_cons, IHt.
Qed.

Lemma options_test_fts5 (o : string) :
  str_in "ENABLE_FTS5" o || str_in "FTS5" o = str_in "FTS5" o.
Proof.
  destruct (str_in "FTS5" o) eqn:E; [apply orb_true_r|].
  rewrite orb_false_r. destruct (str_in "ENABLE_FTS5" o) eqn:E'; [|done].
  rewrite <- E. symmetry. unfold str_in in *.
  by apply (contains_app_r (chars "ENABLE_")).
Qed.

Lemma db_supports_fts_spec (e : Engine) :
  db_supports_fts e = declares_fts5 e || fts5_module e.
Proof.
  unfold db_supports_fts, declares_fts5.
  assert (H : forall l,
             existsb (fun o => str_in "ENABLE_FTS5" o || str_in "FTS5" o) (map upper l)
             = existsb (fun o => str_in "FTS5" (upper o)) l).
  { induction l as [|o l IH]; simpl; [done|]. by rewrite IH, options_test_fts5. }
  rewrite H. destruct (existsb _ _); [done|]. by destruct (fts5_module e).
Qed.

(** C3, as the code has it: [db_supports_fts] answers [True] as soon as a
    compile option names FTS5 and creates nothing in that case; the
    throwaway table is tried only when no option does.  [init_db] then
    creates the real index: the [fts] it reports is true only if the
    index table exists afterwards, and on a database without the table
    only if the creation went through.  The rows are untouched. *)
Theorem fts_detection (e : Engine) (conn : Store) :
  db_supports_fts e = declares_fts5 e || fts5_module e
  /\ (fts (fst (init_db e conn)) = true ->
      is_Some (entities_fts (snd (init_db e conn)))
      /\ (entities_fts conn = None -> fts5_module e = true))
  /\ entities (snd (init_db e conn)) = entities conn.
Proof.
  split; [apply db_supports_fts_spec|].
  unfold init_db. destruct (db_supports_fts e); [|done].
  destruct (entities_fts conn) as [ix|] eqn:E.
  - simpl. rewrite E. by eauto.
  - destruct (fts5_module e); simpl; by eauto.
Qed.

Lemma fts_detection_witness :
  fts (fst (init_db (mkEngine ["THREADSAFE=1"] true true) empty_store)) = true
  /\ is_Some (entities_fts (snd (init_db (mkEngine ["THREADSAFE=1"] true true) empty_store)))
  /\ fts (fst (init_db engine_flag_only empty_store)) = false
  /\ entities (snd (init_db engine_flag_only empty_store)) = [].
Proof.
  pose proof (fts_detection (mkEngine ["THREADSAFE=1"] true true) empty_store)
    as (_ & H1 & _).
  pose proof (fts_detection engine_flag_only empty_store) as (_ & _ & H2).
  split; [reflexivity|]. split; [exact (proj1 (H1 eq_refl))|].
  split; [reflexivity|]. exact H2.
Defined.

(** C3 fails as stated: with FTS5 among the compile options and an
    engine on which creating an fts5 table fails, [db_supports_fts]
    reports [True]. *)
Lemma fts_flag_alone_counterexample :
  fts5_module engine_flag_only = false /\ db_supports_fts engine_flag_only = true.
Proof. by vm_compute. Qed.

(** * Properties of the search dispatcher *)

Lemma chars_text (l : list ascii) : chars (text l) = l.
Proof. apply list_ascii_of_string_of_list_ascii. Qed.

Lemma chars_append (a b : string) : chars (a +:+ b) = chars a ++ chars b.
Proof. induction a as [|c a IH]; simpl; [done|]. by rewrite <- IH. Qed.

Lemma like_percent_cons (p t : list ascii) :
  like_match (percent :: p) t
  = like_match p t || match t with [] => false | _ :: t' => like_match (percent :: p) t' end.
Proof. by destruct t. Qed.

Lemma like_percent_nil (t : list ascii) : like_match [percent] t = true.
Proof.
  induction t as [|d t IH]; [done|].
  rewrite like_percent_cons. rewrite IH. apply orb_true_r.
Qed.

Lemma like_prefix (q t : list ascii) :
  wildcard_free q = true ->
  like_match (q ++ [percent]) t = starts_with (map lower_char q) (map lower_char t).
Proof.
  revert t. induction q as [|c q IH]; intros t Hq.
  - rewrite like_percent_nil. by destruct t.
  - simpl in Hq. apply andb_true_iff in Hq as [Hc Hq].
    apply negb_true_iff, orb_false_iff in Hc as [Hp Hu].
    destruct t as [|d t]; simpl; rewrite Hp; [done|].
    rewrite Hu. simpl. by rewrite IH.
Qed.

Lemma like_substring (q t : list ascii) :
  wildcard_free q = true ->
  like_match (percent :: q ++ [percent]) t
  = contains (map lower_char q) (map lower_char t).
Proof.
  intros Hq. induction t as [|d t IH].
  - rewrite like_percent_cons, like_prefix by done. done.
  - rewrite like_percent_cons, like_prefix, IH by done. done.
Qed.

Lemma sql_like_substring (q : string) (v : option string) :
  wildcard_free (chars q) = true ->
  sql_like ("%" +:+ q +:+ "%") v = field_contains_ci q v.
Proof.
  intros Hq. destruct v as [t|]; [|done].
  unfold sql_like, field_contains_ci, contains_ci, str_in, lower. rewrite !chars_text.
  rewrite <- like_substring by done.
  change (chars ("%" +:+ q +:+ "%")) with (percent :: chars (q +:+ "%")).
  by rewrite chars_append.
Qed.

Lemma filter_ext_all {A : Type} (f g : A -> bool) (l : list A) :
  (forall x, f x = g x) -> List.filter f l = List.filter g l.
Proof. intros H. apply List.filter_ext. exact H. Qed.




(** ** The full-text branch *)

Lemma sql_limit_length {A : Type} (limit : Z) (l : list A) :
  0 <= limit -> (Z.of_nat (length (sql_limit limit l)) <= limit).
Proof.
  intros H. unfold sql_limit. destruct (limit <? 0) eqn:E; [apply Z.ltb_lt in E; lia|].
  rewrite length_take. lia.
Qed.

Lemma sql_limit_In {A : Type} (limit : Z) (l : list A) (x : A) :
  In x (sql_limit limit l) -> In x l.
Proof.
  unfold sql_limit. destruct (limit <? 0); [done|].
  rewrite <- !list_elem_of_In. apply subseteq_take.
Qed.

Lemma sql_limit_sorted (limit : Z) (l : list Z) :
  StronglySorted Z.le l -> StronglySorted Z.le (sql_limit limit l).
Proof.
  unfold sql_limit. destruct (limit <? 0); [done|].
  intros H. rewrite <- (take_drop (Z.to_nat limit) l) in H.
  by apply StronglySorted_app_1_l in H.
Qed.

Lemma sql_limit_map {A B : Type} (f : A -> B) (limit : Z) (l : list A) :
  map f (sql_limit limit l) = sql_limit limit (map f l).
Proof. unfold sql_limit. destruct (limit <? 0); [done|]. apply fmap_take. Qed.

Lemma join_In (rows : list Row) (hit : Doc -> bool) (ix : list Doc) (r : Row) :
  In r (flat_map (fun d => List.filter (fun e => doc_rowid d =? row_id e) rows)
          (List.filter hit ix)) ->
  In r rows /\ exists d, In d ix /\ hit d = true /\ doc_rowid d = row_id r.
Proof.
  rewrite in_flat_map. intros (d & Hd & Hr).
  apply List.filter_In in Hd as [Hd Hh]. apply List.filter_In in Hr as [Hr He].
  apply Z.eqb_eq in He. eauto.
Qed.

Lemma join_sorted (rows : list Row) (hit : Doc -> bool) (ix : list Doc) :
  StronglySorted Z.le (map doc_rowid ix) ->
  StronglySorted Z.le
    (map row_id (flat_map (fun d => List.filter (fun e => doc_rowid d =? row_id e) rows)
                   (List.filter hit ix))).
Proof.
  induction ix as [|d ix IH]; simpl; [constructor|].
  intros H. apply StronglySorted_cons in H as [Hd Hix].
  destruct (hit d) eqn:E; [|by apply IH]. simpl. rewrite map_app.
  apply StronglySorted_app_2; [| |by apply IH].
  - intros x1 x2. rewrite !list_elem_of_In, !in_map_iff.
    intros (r1 & <- & H1) (r2 & <- & H2).
    apply List.filter_In in H1 as [_ H1]. apply Z.eqb_eq in H1. rewrite <- H1.
    apply join_In in H2 as (_ & d2 & Hd2 & _ & <-).
    rewrite Forall_forall in Hd. apply Hd.
    apply list_elem_of_In, in_map_iff. eauto.
  - clear IH. induction rows as [|e rows IHr]; simpl; [constructor|].
    destruct (doc_rowid d =? row_id e) eqn:Ee; [|exact IHr]. simpl.
    apply StronglySorted_cons. split; [|exact IHr].
    apply Forall_forall. intros x. rewrite list_elem_of_In, in_map_iff.
    intros (r & <- & Hr). apply List.filter_In in Hr as [_ Hr].
    apply Z.eqb_eq in Hr, Ee. lia.
Qed.

(** C4, as the code has it: when the index exists, the query is not blank
    and the MATCH statement returns at least one row, [search_entities]
    returns those rows and leaves the store alone.  They are at most
    [limit] for a limit that is not negative, each is an entity whose
    document the matcher accepted, and they come in the order of the
    index, by ascending rowid: the statement has no ORDER BY, so the
    relevance of a document has no part in the order. *)
Theorem fts_search_index_order (fts5_match : string -> option (Doc -> bool))
    (query : string) (limit : Z) (s : Store) (ix : list Doc) (hit : Doc -> bool)
    (r : Row) (rest : list Row) :
  String.eqb (text (strip isspace (chars query))) "" = false ->
  int64_ok limit = true ->
  entities_fts s = Some ix ->
  fts5_match (text (strip isspace (chars query))) = Some hit ->
  StronglySorted Z.le (map doc_rowid ix) ->
  sql_select_match fts5_match (text (strip isspace (chars query))) limit s = Some (r :: rest) ->
  search_entities fts5_match query true limit s = (Ok (r :: rest), s)
  /\ (0 <= limit -> Z.of_nat (length (r :: rest)) <= limit)
  /\ Forall (fun e => In e (entities s)
                      /\ exists d, In d ix /\ hit d = true /\ doc_rowid d = row_id e)
       (r :: rest)
  /\ StronglySorted Z.le (map row_id (r :: rest)).
Proof.
  intros Hne Hint Hix Hhit Hsorted Hrows.
  split.
  { unfold search_entities, bind, lift, bind_int. by rewrite Hint, Hne, Hrows. }
  unfold sql_select_match in Hrows. rewrite Hix, Hhit in Hrows.
  injection Hrows as Hrows. rewrite <- Hrows. clear Hrows.
  split; [intros Hpos; by apply sql_limit_length|]. split.
  - apply List.Forall_forall. intros e He.
    apply sql_limit_In in He. by apply join_In in He.
  - rewrite sql_limit_map. by apply sql_limit_sorted, join_sorted.
Qed.

Lemma fts_search_index_order_witness :
  fst (search_entities match_any_column " ada " true 1 store_short_first)
  = Ok (take 1 (entities store_short_first))
  /\ map row_id (take 1 (entities store_short_first)) = [1].
Proof.
  assert (Hs : StronglySorted Z.le
                 (map doc_rowid (default [] (entities_fts store_short_first)))).
  { change (StronglySorted Z.le [1; 2]). repeat constructor; lia. }
  destruct (entities store_short_first) as [|r rest] eqn:E; [by vm_compute in E|].
  pose proof (fts_search_index_order match_any_column " ada " 1 store_short_first
                (default [] (entities_fts store_short_first)) (doc_contains "ada")
                r [] eq_refl eq_refl eq_refl eq_refl Hs) as H.
  split; [|by vm_compute in E; injection E as <- _].
  rewrite (proj1 (H ltac:(vm_compute; vm_compute in E; by injection E as <- _))).
  done.
Defined.

(** C4 fails as stated: the same two names, created in either order, come
    back in the order of creation, so in one of the two stores the less
    relevant one (one occurrence of the query where the other has three)
    is first. *)
Lemma fts_search_order_counterexample :
  fst (search_entities match_any_column "ada" true 25 store_short_first)
  = Ok (entities store_short_first)
  /\ map row_name (entities store_short_first) = [Some "Ada"; Some "Ada Ada Ada"]
  /\ fst (search_entities match_any_column "ada" true 25 store_long_first)
     = Ok (entities store_long_first)
  /\ map row_name (entities store_long_first) = [Some "Ada Ada Ada"; Some "Ada"]
  /\ term_count "ada" (Some "Ada") = 1%nat
  /\ term_count "ada" (Some "Ada Ada Ada") = 3%nat.
Proof. by vm_compute. Qed.

(** * Properties of the metadata readers *)

Lemma view_entity_some (loads : string -> option PyVal) (entity_id : Z) (r : Row) (s : Store) :
  fetch_entity entity_id s = (Ok (Some r), s) ->
  view_entity loads entity_id s
  = (Ok ([nl +:+ rule;
          "ID: " +:+ str_of_Z (row_id r);
          "Type: " +:+ format_text (row_type r);
          "Name: " +:+ format_text (row_name r);
          "Slug: " +:+ format_text (row_slug r);
          "Description:";
          textwrap_indent (text (strip isspace (chars (or_text (row_description r) "")))) "  ";
          "Tags: " +:+ format_text (row_tags r)]
         ++ view_metadata loads r
         ++ ["Created: " +:+ format_text (row_created_at r);
             "Updated: " +:+ format_text (row_updated_at r);
             rule +:+ nl]), s).
Proof. intros H. unfold view_entity, bind. by rewrite H. Qed.

(** C5 against the code: for an entity whose metadata text [json.loads]
    refuses, [view_entity] prints every other field and, in place of the
    metadata, the line [Metadata: (invalid JSON)] with the raw text; the
    reader of [prompt_fields], on the edit path, takes the metadata to be
    the empty mapping, as it does for an entity whose metadata is the
    text of the empty object. *)
Theorem corrupt_metadata_read_paths (loads : string -> option PyVal)
    (entity_id : Z) (r : Row) (s : Store) :
  fetch_entity entity_id s = (Ok (Some r), s) ->
  loads (or_text (row_metadata r) "{}") = None ->
  view_entity loads entity_id s
  = (Ok ([nl +:+ rule;
          "ID: " +:+ str_of_Z (row_id r);
          "Type: " +:+ format_text (row_type r);
          "Name: " +:+ format_text (row_name r);
          "Slug: " +:+ format_text (row_slug r);
          "Description:";
          textwrap_indent (text (strip isspace (chars (or_text (row_description r) "")))) "  ";
          "Tags: " +:+ format_text (row_tags r);
          "Metadata: (invalid JSON)";
          format_text (row_metadata r);
          "Created: " +:+ format_text (row_created_at r);
          "Updated: " +:+ format_text (row_updated_at r);
          rule +:+ nl]), s)
  /\ existing_meta loads (Some r) = PyDict []
  /\ (loads "{}" = Some (PyDict []) ->
      existing_meta loads (Some r)
      = existing_meta loads
          (Some (mkRow (row_id r) (row_type r) (row_name r) (row_slug r)
                   (row_description r) (row_tags r) (Some "{}")
                   (row_created_at r) (row_updated_at r)))).
Proof.
  intros Hr Hbad. split; [|split].
  - rewrite (view_entity_some loads entity_id r s Hr).
    unfold view_metadata. by rewrite Hbad.
  - unfold existing_meta. by rewrite Hbad.
  - intros Hok. unfold existing_meta. rewrite Hbad. simpl. by rewrite Hok.
Qed.

Lemma corrupt_metadata_read_paths_witness :
  existing_meta loads_empty_object (Some row_corrupt) = PyDict []
  /\ In "Metadata: (invalid JSON)" (view_metadata loads_empty_object row_corrupt)
  /\ In "{oops" (view_metadata loads_empty_object row_corrupt).
Proof.
  pose proof (corrupt_metadata_read_paths loads_empty_object 1 row_corrupt store_corrupt
                eq_refl eq_refl) as (_ & H & _).
  split; [exact H|]. split; simpl; tauto.
Defined.

(** * Properties of the ranking *)

Section SortFacts.
Context {A K : Type} (key : A -> K) (lt : K -> K -> bool).

Lemma insert_desc_perm (x : A) (l : list A) :
  Permutation (insert_desc key lt x l) (x :: l).
Proof.
  induction l as [|y l IH]; simpl; [done|].
  destruct (lt (key x) (key y)); [|done].
  rewrite IH. apply perm_swap.
Qed.

Lemma sort_desc_perm (l : list A) : Permutation (sort_desc key lt l) l.
Proof.
  induction l as [|x l IH]; simpl; [done|].
  rewrite insert_desc_perm. by constructor.
Qed.

(** Elements that are pairwise not below one another keep their order. *)
Lemma insert_desc_stable (p : A -> bool) (x : A) (l : list A) :
  (forall a b, p a = true -> p b = true -> lt (key a) (key b) = false) ->
  List.filter p (insert_desc key lt x l) = List.filter p (x :: l).
Proof.
  intros Hp. induction l as [|y l IH]; [done|].
  cbn [insert_desc]. destruct (lt (key x) (key y)) eqn:E; [|done].
  cbn [List.filter] in *. rewrite IH.
  destruct (p x) eqn:Ex, (p y) eqn:Ey; try done.
  by rewrite (Hp x y Ex Ey) in E.
Qed.

Lemma sort_desc_stable (p : A -> bool) (l : list A) :
  (forall a b, p a = true -> p b = true -> lt (key a) (key b) = false) ->
  List.filter p (sort_desc key lt l) = List.filter p l.
Proof.
  intros Hp. induction l as [|x l IH]; [done|].
  cbn [sort_desc foldr]. fold (sort_desc key lt l).
  rewrite insert_desc_stable by done. cbn [List.filter]. by rewrite IH.
Qed.

(** On keys that [lt] orders, the result is descending. *)
Variable ok : K -> Prop.
Hypothesis lt_asym : forall a b, lt a b = true -> lt b a = false.
Hypothesis lt_negtrans :
  forall a b c, ok b -> lt a c = true -> lt a b = true \/ lt b c = true.

Lemma insert_desc_sorted (x : A) (l : list A) :
  Forall (fun a => ok (key a)) l ->
  StronglySorted (not_below key lt) l ->
  StronglySorted (not_below key lt) (insert_desc key lt x l).
Proof.
  intros Hok Hs. induction l as [|y l IH]; simpl; [repeat constructor|].
  apply Forall_cons in Hok as [Hy Hok].
  apply StronglySorted_cons in Hs as [Hyl Hs].
  destruct (lt (key x) (key y)) eqn:E.
  - apply StronglySorted_cons. split; [|by apply IH].
    rewrite (insert_desc_perm x l). constructor; [|done].
    by apply lt_asym.
  - apply StronglySorted_cons. split; [|by apply StronglySorted_cons].
    constructor; [done|].
    eapply Forall_impl; [exact Hyl|]. intros z Hz. unfold not_below in *.
    destruct (lt (key x) (key z)) eqn:Ez; [|done].
    destruct (lt_negtrans _ _ _ Hy Ez) as [H|H]; congruence.
Qed.

Lemma sort_desc_sorted (l : list A) :
  Forall (fun a => ok (key a)) l ->
  StronglySorted (not_below key lt) (sort_desc key lt l).
Proof.
  induction l as [|x l IH]; intros Hok; [constructor|].
  apply Forall_cons in Hok as [_ Hok].
  cbn [sort_desc foldr]. fold (sort_desc key lt l).
  apply insert_desc_sorted; [|by apply IH].
  by rewrite (sort_desc_perm l).
Qed.
End SortFacts.

(** ** The order of the scores *)

Lemma flt_fkey (x y : spec_float) :
  is_nan x = false -> is_nan y = false ->
  flt x y = true <-> lexlt (fkey x) (fkey y).
Proof.
  intros Hx Hy. unfold flt, SFltb.
  destruct x as [sx|sx| |sx mx ex], y as [sy|sy| |sy my ey]; try done;
    try destruct sx; try destruct sy; simpl; try (split; [done|lia]);
    try (split; [lia|done]).
  - destruct (Z.compare_spec ex ey); simpl;
      [rewrite Pos.compare_cont_spec; simpl; destruct (Pos.compare_spec mx my); simpl| |];
      split; intros; try done; lia.
  - destruct (Z.compare_spec ex ey); simpl;
      [rewrite Pos.compare_cont_spec; simpl; destruct (Pos.compare_spec mx my); simpl| |];
      split; intros; try done; lia.
Qed.

Lemma flt_not_nan (x y : spec_float) :
  flt x y = true -> is_nan x = false /\ is_nan y = false.
Proof. unfold flt, SFltb. by destruct x, y. Qed.

Lemma flt_irrefl (x : spec_float) : flt x x = false.
Proof.
  destruct (flt x x) eqn:E; [|done].
  destruct (flt_not_nan x x E) as [Hx _].
  apply (flt_fkey x x Hx Hx) in E. unfold lexlt in E.
  destruct (fkey x) as [[a b] c]. lia.
Qed.

Lemma flt_asym (x y : spec_float) : flt x y = true -> flt y x = false.
Proof.
  intros E. destruct (flt_not_nan x y E) as [Hx Hy].
  destruct (flt y x) eqn:E'; [|done].
  apply (flt_fkey x y Hx Hy) in E. apply (flt_fkey y x Hy Hx) in E'.
  unfold lexlt in *. destruct (fkey x) as [[a b] c], (fkey y) as [[a' b'] c']. lia.
Qed.

Lemma flt_negtrans (x y z : spec_float) :
  is_nan y = false -> flt x z = true -> flt x y = true \/ flt y z = true.
Proof.
  intros Hy E. destruct (flt_not_nan x z E) as [Hx Hz].
  rewrite (flt_fkey x y Hx Hy), (flt_fkey y z Hy Hz).
  apply (flt_fkey x z Hx Hz) in E.
  unfold lexlt in *.
  destruct (fkey x) as [[a b] c], (fkey y) as [[a' b'] c'], (fkey z) as [[a'' b''] c''].
  lia.
Qed.

(** ** Rounding keeps the scores numbers *)

Lemma shr_1_nonneg (mrs : shr_record) : 0 <= shr_m mrs -> 0 <= shr_m (shr_1 mrs).
Proof.
  destruct mrs as [m r s]. simpl. intros H.
  destruct m as [|p|p]; [done| |lia]. by destruct p.
Qed.

Lemma iter_pos_shr_1_nonneg (n : positive) (mrs : shr_record) :
  0 <= shr_m mrs -> 0 <= shr_m (SpecFloat.iter_pos shr_1 n mrs).
Proof.
  revert mrs. induction n as [n IH|n IH|]; intros mrs H; simpl.
  - by apply IH, IH, shr_1_nonneg.
  - by apply IH, IH.
  - by apply shr_1_nonneg.
Qed.

Lemma shr_fexp_nonneg (m e : Z) (l : location) :
  0 <= m -> 0 <= shr_m (fst (shr_fexp 53 1024 m e l)).
Proof.
  intros H. unfold shr_fexp, shr.
  assert (H0 : 0 <= shr_m (shr_record_of_loc m l)).
  { destruct l as [|[]]; done. }
  destruct (fexp 53 1024 (Zdigits2 m + e) - e); simpl; [done| |done].
  by apply iter_pos_shr_1_nonneg.
Qed.

Lemma round_nearest_even_nonneg (m : Z) (l : location) :
  0 <= m -> 0 <= round_nearest_even m l.
Proof.
  intros H. destruct l as [|[]]; simpl; try lia.
  destruct (Z.even m); lia.
Qed.

Lemma binary_round_aux_nonneg (mx ex : Z) (lx : location) :
  0 <= mx -> nonneg_float (binary_round_aux 53 1024 false mx ex lx) = true.
Proof.
  intros H. unfold binary_round_aux.
  pose proof (shr_fexp_nonneg mx ex lx H) as H1.
  destruct (shr_fexp 53 1024 mx ex lx) as [mrs' e'] eqn:E1. simpl in H1.
  pose proof (shr_fexp_nonneg _ e' loc_Exact
                (round_nearest_even_nonneg _ (loc_of_shr_record mrs') H1)) as H2.
  destruct (shr_fexp 53 1024 _ e' loc_Exact) as [mrs'' e''] eqn:E2. simpl in H2.
  destruct (shr_m mrs'') as [|p|p]; [done| |lia].
  by destruct (e'' <=? 1024 - 53).
Qed.

(** ** The float of a length *)

Lemma digits2_pos_bound (p : positive) (n : Z) :
  0 <= n -> Z.pos p < 2 ^ n -> Z.pos (digits2_pos p) <= n.
Proof.
  revert n. induction p as [p IH|p IH|]; intros n Hn Hp; simpl.
  - assert (n <> 0) by (intros ->; simpl in Hp; lia).
    replace n with (Z.succ (n - 1)) in Hp by lia. rewrite Z.pow_succ_r in Hp by lia.
    specialize (IH (n - 1)). lia.
  - assert (n <> 0) by (intros ->; simpl in Hp; lia).
    replace n with (Z.succ (n - 1)) in Hp by lia. rewrite Z.pow_succ_r in Hp by lia.
    specialize (IH (n - 1)). lia.
  - assert (n <> 0) by (intros ->; simpl in Hp; lia). lia.
Qed.

Lemma digits2_pos_shift (p k : positive) :
  digits2_pos (Pos.iter xO p k) = (digits2_pos p + k)%positive.
Proof.
  induction k as [|k IH] using Pos.peano_ind.
  - simpl. lia.
  - rewrite Pos.iter_succ. simpl. rewrite IH. lia.
Qed.

Lemma binary_round_aux_canonical (m : positive) (e : Z) :
  Z.pos (digits2_pos m) = 53 -> -1074 <= e <= 971 ->
  binary_round_aux 53 1024 false (Z.pos m) e loc_Exact = S754_finite false m e.
Proof.
  intros Hd He.
  assert (H0 : forall l, shr_fexp 53 1024 (Z.pos m) e l = (shr_record_of_loc (Z.pos m) l, e)).
  { intros l. unfold shr_fexp, fexp, emin. cbn [Zdigits2]. rewrite Hd.
    replace (Z.max (53 + e - 53) (3 - 1024 - 53) - e) with 0 by lia. done. }
  unfold binary_round_aux. rewrite H0. cbn [shr_record_of_loc shr_m loc_of_shr_record
    round_nearest_even]. rewrite H0. cbn [shr_record_of_loc shr_m].
  destruct (e <=? 1024 - 53) eqn:E; [done|]. apply Z.leb_gt in E. lia.
Qed.

Lemma float_of_Z_finite (t : Z) :
  0 < t < 2 ^ 53 -> finite_pos (float_of_Z t) = true.
Proof.
  intros [H0 H1]. destruct t as [|p|p]; try lia.
  pose proof (digits2_pos_bound p 53 ltac:(lia) H1) as Hd.
  unfold float_of_Z, binary_normalize, binary_round, shl_align, fexp, emin.
  replace (Z.max (Z.pos (digits2_pos p) + 0 - 53) (3 - 1024 - 53) - 0)
    with (Z.pos (digits2_pos p) - 53) by lia.
  replace (Z.max (Z.pos (digits2_pos p) + 0 - 53) (3 - 1024 - 53))
    with (Z.pos (digits2_pos p) - 53) by lia.
  destruct (Z.pos (digits2_pos p) - 53) as [|k|k] eqn:E; [|lia|].
  - rewrite binary_round_aux_canonical by lia. done.
  - rewrite binary_round_aux_canonical; [done| |lia].
    rewrite digits2_pos_shift. lia.
Qed.

Lemma float_of_Z_nonneg (t : Z) : 0 <= t -> nonneg_float (float_of_Z t) = true.
Proof.
  intros H. destruct t as [|p|p]; [done| |lia].
  unfold float_of_Z, binary_normalize, binary_round.
  destruct (shl_align p 0 _) as [mz ez]. by apply binary_round_aux_nonneg.
Qed.

Lemma fmul_nonneg (x y : spec_float) :
  nonneg_float x = true -> nonneg_float y = true ->
  finite_pos x = true \/ finite_pos y = true ->
  nonneg_float (fmul x y) = true.
Proof.
  intros Hx Hy Hf. unfold fmul.
  destruct x as [[]|[]| |[] mx ex], y as [[]|[]| |[] my ey]; try done;
    try (by destruct Hf).
  simpl. by apply binary_round_aux_nonneg.
Qed.

Lemma fdiv_nonneg (x y : spec_float) :
  nonneg_float x = true -> finite_pos y = true -> nonneg_float (fdiv x y) = true.
Proof.
  intros Hx Hy. unfold fdiv.
  destruct x as [[]|[]| |[] mx ex], y as [[]|[]| |[] my ey]; try done.
  unfold SFdiv, SFdiv_core_binary.
  set (s := ex - ey - Z.min _ _).
  set (m' := match s with 0 => Z.pos mx | Z.pos _ => Z.shiftl (Z.pos mx) s | Z.neg _ => 0 end).
  assert (Hm : 0 <= m').
  { subst m'. destruct s; try lia. by apply Z.shiftl_nonneg. }
  pose proof (Z.div_pos m' (Z.pos my) Hm ltac:(lia)) as Hq.
  unfold Z.div in Hq. destruct (Z.div_eucl m' (Z.pos my)) as [q r].
  by apply binary_round_aux_nonneg.
Qed.

Lemma nonneg_not_nan (x : spec_float) : nonneg_float x = true -> is_nan x = false.
Proof. by destruct x. Qed.

Lemma py_max_nonneg (a b : spec_float) :
  nonneg_float a = true -> nonneg_float b = true -> nonneg_float (py_max a b) = true.
Proof. intros Ha Hb. unfold py_max. by destruct (flt a b). Qed.

Lemma calculate_ratio_nonneg (m t : Z) :
  0 <= m -> 0 <= t < 2 ^ 53 -> nonneg_float (calculate_ratio m t) = true.
Proof.
  intros Hm Ht. unfold calculate_ratio. destruct (t =? 0) eqn:E; [done|].
  apply Z.eqb_neq in E. apply fdiv_nonneg.
  - apply fmul_nonneg; [done|by apply float_of_Z_nonneg|by left].
  - apply float_of_Z_finite. lia.
Qed.

Lemma length_lower (s : string) : String.length (lower s) = String.length s.
Proof.
  unfold lower, text, chars. induction s as [|c s IH]; simpl; [done|]. by rewrite IH.
Qed.

Lemma ratio_nonneg (matching : string -> string -> nat) (a b : string) :
  short_text a = true -> short_text b = true ->
  nonneg_float (ratio matching (lower a) (lower b)) = true.
Proof.
  unfold short_text. intros Ha Hb. apply Z.ltb_lt in Ha, Hb.
  unfold ratio. rewrite !length_lower. apply calculate_ratio_nonneg; [lia|].
  change (2 ^ 53) with (2 ^ 52 + 2 ^ 52). lia.
Qed.

Lemma score_nonneg (matching : string -> string -> nat) (query : string) (r : Row) :
  short_text query = true -> short_row r = true ->
  nonneg_float (score matching query r) = true.
Proof.
  intros Hq Hr. apply andb_true_iff in Hr as [Hn Hd]. unfold score.
  apply fmul_nonneg; [|done|by right].
  apply py_max_nonneg; [|by apply ratio_nonneg].
  apply fmul_nonneg; [by apply ratio_nonneg|done|by right].
Qed.

Lemma ratio_empty_text (matching : string -> string -> nat) (query : string) :
  (forall a, matching a "" = 0%nat) ->
  short_text query = true ->
  ratio matching (lower query) (lower "") = if String.eqb query "" then f1 else f0.
Proof.
  intros Hm Hq. unfold short_text in Hq. apply Z.ltb_lt in Hq.
  unfold ratio. change (lower "") with EmptyString. rewrite Hm, length_lower.
  destruct query as [|c q]; [done|].
  unfold calculate_ratio. cbn [String.eqb String.length].
  destruct (_ =? 0) eqn:E; [apply Z.eqb_eq in E; lia|].
  pose proof (float_of_Z_finite (Z.of_nat (S (String.length q)) + Z.of_nat 0)) as Hf.
  destruct (float_of_Z (Z.of_nat (S (String.length q)) + Z.of_nat 0)) as [| | |[] m e].
  1-4: (discriminate Hf; change (2 ^ 53) with (2 ^ 52 + 2 ^ 52); simpl String.length in Hq; lia).
  done.
Qed.

Lemma score_no_text (matching : string -> string -> nat) (query : string) (r : Row) :
  (forall a, matching a "" = 0%nat) ->
  short_text query = true ->
  no_text r = true ->
  score matching query r = if String.eqb query "" then f120 else f0.
Proof.
  intros Hm Hq Hr. apply andb_true_iff in Hr as [Hn Hd].
  apply String.eqb_eq in Hn, Hd. unfold score. rewrite Hn, Hd.
  rewrite ratio_empty_text by done. by destruct (String.eqb query "").
Qed.

Lemma slice_to_take {A : Type} (n : Z) (l : list A) :
  0 <= n -> slice_to n l = take (Z.to_nat n) l.
Proof. intros H. unfold slice_to. destruct (n <? 0) eqn:E; [apply Z.ltb_lt in E; lia|done]. Qed.

(** C7, as the code has it: without rapidfuzz every candidate gets the
    score [max(nameRatio * 1.2, descRatio) * 100] of [score], computed in
    binary64 from difflib's ratios of the lowercased texts.  For texts
    shorter than 2^52 characters and a [top_n] that is not negative, the
    result is the first [top_n] candidates of a list that holds every
    scored candidate once, in descending order of score, those of equal
    score in the order of the input.  A candidate with no text scores 0
    for a query that is not empty, and 120 for the empty query. *)
Theorem rank_candidates_fallback (matching : string -> string -> nat)
    (query : string) (rows : list Row) (top_n : Z) :
  (forall a, matching a "" = 0%nat) ->
  short_text query = true ->
  forallb short_row rows = true ->
  0 <= top_n ->
  exists sorted : list (Row * spec_float),
    rank_candidates matching query rows top_n = take (Z.to_nat top_n) sorted
    /\ Permutation sorted (scored matching query rows)
    /\ StronglySorted (not_below snd flt) sorted
    /\ (forall v, with_score v sorted = with_score v (scored matching query rows))
    /\ (forall r, In r rows -> no_text r = true ->
          score matching query r = if String.eqb query "" then f120 else f0).
Proof.
  intros Hm Hq Hrows Htop.
  exists (sort_desc snd flt (scored matching query rows)).
  split; [by apply slice_to_take|]. split; [apply sort_desc_perm|]. split; [|split].
  - apply (sort_desc_sorted snd flt (fun k => is_nan k = false) flt_asym flt_negtrans).
    unfold scored. apply Forall_map, Forall_forall. intros r Hr. simpl.
    apply nonneg_not_nan, score_nonneg; [done|].
    rewrite forallb_forall in Hrows. by apply Hrows, list_elem_of_In.
  - intros v. apply sort_desc_stable. intros a b Ha Hb.
    apply bool_decide_eq_true in Ha, Hb. rewrite Ha, Hb. apply flt_irrefl.
  - intros r _ Hr. by apply score_no_text.
Qed.

Lemma common_prefix_empty (a : string) : common_prefix a "" = 0%nat.
Proof. by destruct a. Qed.

Lemma rank_candidates_fallback_witness :
  exists sorted : list (Row * spec_float),
    rank_candidates common_prefix "ada" [row_blank; row_ada] 1 = take 1 sorted
    /\ Permutation sorted (scored common_prefix "ada" [row_blank; row_ada])
    /\ score common_prefix "ada" row_blank = f0.
Proof.
  assert (Htop : 0 <= 1) by lia.
  destruct (rank_candidates_fallback common_prefix "ada" [row_blank; row_ada] 1
              common_prefix_empty eq_refl eq_refl Htop) as (sorted & H1 & H2 & _ & _ & H5).
  exists sorted. split; [exact H1|]. split; [exact H2|].
  apply (H5 row_blank); [simpl; tauto|reflexivity].
Defined.

(** C7 fails as stated: for the empty query a candidate with no text has
    both ratios 1.0 and scores 120, not 0. *)
Lemma rank_empty_query_counterexample :
  no_text row_blank = true
  /\ rank_candidates common_prefix "" [row_blank] 10 = [(row_blank, f120)]
  /\ flt f0 f120 = true.
Proof. by vm_compute. Qed.

(** * Properties of [slugify] *)

Lemma lower_char_not_upper (c : ascii) : is_upper (lower_char c) = false.
Proof. by destruct c as [[] [] [] [] [] [] [] []]. Qed.

Lemma replace_dd_cons (c1 c2 : ascii) (r : list ascii) :
  replace_dd (c1 :: c2 :: r)
  = if is_dash c1 && is_dash c2 then dash :: replace_dd r else c1 :: replace_dd (c2 :: r).
Proof. done. Qed.

Lemma has_dd_cons (c1 c2 : ascii) (r : list ascii) :
  has_dd (c1 :: c2 :: r) = (is_dash c1 && is_dash c2) || has_dd (c2 :: r).
Proof. done. Qed.

Lemma replace_dd_length (n : nat) (l : list ascii) :
  (length l <= n)%nat ->
  (length (replace_dd l) <= length l)%nat
  /\ (has_dd l = true -> (length (replace_dd l) < length l)%nat).
Proof.
  revert l. induction n as [|n IH]; intros l Hl.
  - destruct l; [done|simpl in Hl; lia].
  - destruct l as [|c1 [|c2 r]]; [done|done|].
    rewrite replace_dd_cons, has_dd_cons. cbn [length] in Hl.
    destruct (is_dash c1 && is_dash c2) eqn:E.
    + destruct (IH r ltac:(lia)) as [H1 _]. cbn [length]. split; [lia|intros _; lia].
    + destruct (IH (c2 :: r) ltac:(cbn [length]; lia)) as [H1 H2].
      cbn [length] in *. split; [lia|]. intros H. specialize (H2 H). lia.
Qed.

Lemma collapse_no_dd (fuel : nat) (l : list ascii) :
  (length l <= fuel)%nat -> has_dd (collapse fuel l) = false.
Proof.
  revert l. induction fuel as [|fuel IH]; intros l Hl.
  - by destruct l; [|simpl in Hl; lia].
  - simpl. destruct (has_dd l) eqn:E; [|done]. apply IH.
    destruct (replace_dd_length (length l) l ltac:(lia)) as [_ H]. specialize (H E). lia.
Qed.

Lemma has_dd_app (l1 l2 : list ascii) :
  has_dd (l1 ++ l2) = false -> has_dd l1 = false /\ has_dd l2 = false.
Proof.
  induction l1 as [|c1 [|c2 r] IH]; [done| |].
  - simpl. intros H. split; [done|]. destruct l2 as [|c2 r]; [done|].
    by apply orb_false_iff in H as [_ H].
  - change ((c1 :: c2 :: r) ++ l2) with (c1 :: c2 :: (r ++ l2)).
    rewrite !has_dd_cons. intros H. apply orb_false_iff in H as [H1 H2].
    destruct (IH H2) as [H3 H4]. rewrite H1. by split.
Qed.

Lemma lstrip_suffix (p : ascii -> bool) (l : list ascii) :
  exists l0, l = l0 ++ lstrip p l.
Proof.
  induction l as [|c l [l0 IH]]; [by exists []|]. simpl.
  destruct (p c); [|by exists []]. exists (c :: l0). simpl. by rewrite <- IH.
Qed.

Lemma lstrip_head (p : ascii -> bool) (l : list ascii) (c : ascii) (r : list ascii) :
  lstrip p l = c :: r -> p c = false.
Proof.
  induction l as [|d l IH]; simpl; [done|].
  destruct (p d) eqn:E; [done|]. by intros [= <- _].
Qed.

Lemma rstrip_prefix (p : ascii -> bool) (l : list ascii) :
  exists l1, l = rstrip p l ++ l1.
Proof.
  unfold rstrip. destruct (lstrip_suffix p (rev l)) as [l0 H].
  exists (rev l0). rewrite <- rev_app_distr, <- H. by rewrite rev_involutive.
Qed.

(** What is left of a text between two cuts. *)
Lemma slug_cut (s : list ascii) :
  exists a b, s = a ++ firstn 200 (strip is_dash s) ++ b.
Proof.
  unfold strip. destruct (lstrip_suffix is_dash s) as [a Ha].
  destruct (rstrip_prefix is_dash (lstrip is_dash s)) as [b Hb].
  exists a, (skipn 200 (rstrip is_dash (lstrip is_dash s)) ++ b).
  rewrite (app_assoc (firstn 200 _)), firstn_skipn, <- Hb. exact Ha.
Qed.

Lemma slug_no_leading_dash (s : list ascii) :
  no_leading_dash (firstn 200 (strip is_dash s)) = true.
Proof.
  unfold strip. destruct (rstrip_prefix is_dash (lstrip is_dash s)) as [b Hb].
  destruct (rstrip is_dash (lstrip is_dash s)) as [|c r] eqn:E; [done|].
  simpl in *. by rewrite (lstrip_head is_dash s c (r ++ b) Hb).
Qed.

Lemma replace_dd_chars (n : nat) (l : list ascii) :
  (length l <= n)%nat -> Forall (fun c => slug_char c = true) l ->
  Forall (fun c => slug_char c = true) (replace_dd l).
Proof.
  revert l. induction n as [|n IH]; intros l Hl H.
  - destruct l; [done|simpl in Hl; lia].
  - destruct l as [|c1 [|c2 r]]; [done|done|].
    rewrite replace_dd_cons. cbn [length] in Hl.
    apply Forall_cons in H as [H1 H2]. pose proof H2 as [H3 H4]%Forall_cons.
    destruct (is_dash c1 && is_dash c2).
    + constructor; [done|]. apply IH; [lia|done].
    + constructor; [done|]. apply IH; [cbn [length]; lia|done].
Qed.

Lemma collapse_chars (fuel : nat) (l : list ascii) :
  Forall (fun c => slug_char c = true) l ->
  Forall (fun c => slug_char c = true) (collapse fuel l).
Proof.
  revert l. induction fuel as [|fuel IH]; intros l H; simpl; [done|].
  destruct (has_dd l); [|done]. by apply IH, (replace_dd_chars (length l)).
Qed.

(** X1.  The slug of a 7-bit name holds at most 200 characters, each a
    lowercase letter, a digit or a dash, never two dashes in a row, and
    does not start with a dash. *)
Theorem slugify_shape (name : string) :
  ascii_only name = true ->
  (String.length (slugify name) <= 200)%nat
  /\ Forall (fun c => slug_char c = true) (chars (slugify name))
  /\ has_dd (chars (slugify name)) = false
  /\ no_leading_dash (chars (slugify name)) = true.
Proof.
  intros _. unfold slugify. rewrite chars_text.
  set (s := map (fun c => if isalnum c then c else dash) (map lower_char (chars name))).
  assert (Hs : Forall (fun c => slug_char c = true) s).
  { subst s. apply Forall_map, Forall_map, Forall_forall. intros c _. simpl.
    unfold isalnum, slug_char. rewrite lower_char_not_upper. simpl.
    destruct (is_lower (lower_char c) || is_digit (lower_char c)) eqn:E; [by rewrite E|done]. }
  destruct (slug_cut (collapse (length s) s)) as (a & b & Hcut).
  split; [|split; [|split]].
  - replace (String.length (text (firstn 200 (strip is_dash (collapse (length s) s)))))
      with (length (firstn 200 (strip is_dash (collapse (length s) s)))).
    + rewrite length_take. lia.
    + generalize (firstn 200 (strip is_dash (collapse (length s) s))).
      intros l. induction l; simpl; [done|]. by f_equal.
  - pose proof (collapse_chars (length s) s Hs) as H. rewrite Hcut in H.
    by apply Forall_app in H as [_ [H _]%Forall_app].
  - pose proof (collapse_no_dd (length s) s ltac:(lia)) as H. rewrite Hcut in H.
    by apply has_dd_app in H as [_ [H _]%has_dd_app].
  - apply slug_no_leading_dash.
Qed.

Lemma slugify_shape_witness :
  slugify "  Ada -- Lovelace (1815)!" = "ada-lovelace-1815"%string
  /\ has_dd (chars (slugify "  Ada -- Lovelace (1815)!")) = false.
Proof.
  split; [reflexivity|].
  exact (proj1 (proj2 (proj2 (slugify_shape "  Ada -- Lovelace (1815)!" eq_refl)))).
Defined.

(** * Further properties of the record store *)

Lemma delete_entity_run (rid : Z) (s s' : Store) :
  delete_entity rid s = (Ok tt, s') ->
  int64_ok rid = true
  /\ entities s' = filter (fun r => row_id r ≠ rid) (entities s)
  /\ sqlite_sequence s' = sqlite_sequence s.
Proof.
  unfold delete_entity, bind, lift, bind_int, sql_delete.
  destruct (int64_ok rid); [|done]. by intros [= <-].
Qed.

(** X2.  Ids are never handed out twice: the id [add_entity] returns is above
    every id in the table, and an id returned after any [delete_entity] is
    above the ids returned before it, whether their entities are still
    there or not. *)
Theorem add_entity_fresh_id (fields1 fields2 : gmap string PyVal) (now1 now2 : string)
    (victim id1 id2 : Z) (s s1 s2 s3 : Store) :
  add_entity fields1 now1 s = (Ok id1, s1) ->
  delete_entity victim s1 = (Ok tt, s2) ->
  add_entity fields2 now2 s2 = (Ok id2, s3) ->
  Forall (fun r => row_id r < id1) (entities s)
  /\ id1 < id2
  /\ Forall (fun r => row_id r < id2) (entities s2).
Proof.
  intros H1 H2 H3.
  apply add_entity_ok_inv in H1 as (? & ? & ? & ? & ? & ? & _ & _ & _ & _ & _ & _ & _ & Hid1 & ->).
  apply delete_entity_run in H2 as (_ & _ & Hseq).
  apply add_entity_ok_inv in H3 as (? & ? & ? & ? & ? & ? & _ & _ & _ & _ & _ & _ & _ & Hid2 & _).
  assert (Hlt : forall st, Forall (fun r => row_id r < next_rowid st) (entities st)).
  { intros st. apply Forall_forall. intros r Hr%row_id_le_max. unfold next_rowid. lia. }
  subst id1 id2. split; [apply Hlt|]. split; [|apply Hlt].
  unfold next_rowid at 2. rewrite Hseq. simpl. lia.
Qed.

Lemma add_entity_fresh_id_witness :
  add_entity ada "2024-05-01T10:00:00.000001Z" empty_store_fts = (Ok 1, store_ada)
  /\ entities (snd (delete_entity 1 store_ada)) = []
  /\ fst (add_entity grace "2024-05-01T10:00:02.000001Z" (snd (delete_entity 1 store_ada)))
     = Ok 2
  /\ 1 < 2.
Proof.
  assert (H1 : add_entity ada "2024-05-01T10:00:00.000001Z" empty_store_fts = (Ok 1, store_ada))
    by (by vm_compute).
  assert (H2 : delete_entity 1 store_ada = (Ok tt, snd (delete_entity 1 store_ada)))
    by (by vm_compute).
  assert (H3 : add_entity grace "2024-05-01T10:00:02.000001Z" (snd (delete_entity 1 store_ada))
               = (Ok 2, snd (add_entity grace "2024-05-01T10:00:02.000001Z"
                               (snd (delete_entity 1 store_ada)))))
    by (by vm_compute).
  split; [exact H1|]. split; [by vm_compute|]. split; [by rewrite H3|].
  exact (proj1 (proj2 (add_entity_fresh_id _ _ _ _ _ _ _ _ _ _ _ H1 H2 H3))).
Defined.

Lemma filter_other_id (rid other : Z) (rows : list Row) :
  other <> rid ->
  filter (fun r => row_id r = other) (filter (fun r => row_id r ≠ rid) rows)
  = filter (fun r => row_id r = other) rows.
Proof.
  intros Hne. induction rows as [|r rows IH]; [done|].
  rewrite (filter_cons (fun r => row_id r ≠ rid)).
  destruct (decide (row_id r ≠ rid)) as [H|H].
  - rewrite !filter_cons. destruct (decide (row_id r = other)); by rewrite IH.
  - rewrite IH, filter_cons. destruct (decide (row_id r = other)); [|done]. lia.
Qed.

Lemma filter_absent_after (rid : Z) (rows : list Row) :
  Forall (fun r => row_id r ≠ rid) (filter (fun r => row_id r ≠ rid) rows).
Proof. apply Forall_forall. by intros r [H _]%list_elem_of_filter. Qed.

(** X3.  After [delete_entity] the entity is gone: [fetch_entity] on its id
    returns [None], every other id reads back what it did before, and
    deleting once more changes nothing. *)
Theorem delete_then_fetch (rid other : Z) (s s' : Store) :
  delete_entity rid s = (Ok tt, s') ->
  fetch_entity rid s' = (Ok None, s')
  /\ (other <> rid -> fetch_entity other s' = (fst (fetch_entity other s), s'))
  /\ delete_entity rid s' = (Ok tt, s').
Proof.
  intros H. apply delete_entity_run in H as (Hint & Hrows & _).
  pose proof (filter_absent_after rid (entities s)) as Habs. rewrite <- Hrows in Habs.
  split; [|split].
  - unfold fetch_entity, bind, lift, bind_int, sql_select_by_id. rewrite Hint.
    by destruct (filter_absent rid _ Habs) as [_ ->].
  - intros Hne. unfold fetch_entity, bind, lift, bind_int, sql_select_by_id.
    destruct (int64_ok other); [|done]. simpl. by rewrite Hrows, filter_other_id.
  - unfold delete_entity, bind, lift, bind_int. rewrite Hint.
    by apply sql_delete_absent.
Qed.

Lemma delete_then_fetch_witness :
  fetch_entity 1 (snd (delete_entity 1 store_ada)) = (Ok None, snd (delete_entity 1 store_ada)).
Proof.
  assert (H : delete_entity 1 store_ada = (Ok tt, snd (delete_entity 1 store_ada)))
    by (by vm_compute).
  exact (proj1 (delete_then_fetch 1 2 _ _ H)).
Defined.

(** * Further properties of the search dispatcher *)

(** X4.  A full-text attempt that fails (no index table, or a query text the
    index engine refuses) or that finds nothing is not an error: the
    search answers what it answers without the index.  With a limit that
    fits 64 bits and a 7-bit query whose LIKE pattern is within SQLite's
    limit of 50000 bytes, it returns rows and leaves the store alone. *)
Theorem search_fts_failure_falls_back (fts5_match : string -> option (Doc -> bool))
    (query : string) (fts : bool) (limit : Z) (s : Store) :
  int64_ok limit = true ->
  ascii_only query = true ->
  like_pattern_fits (text (strip isspace (chars query))) = true ->
  (exists rows, search_entities fts5_match query fts limit s = (Ok rows, s))
  /\ (sql_select_match fts5_match (text (strip isspace (chars query))) limit s = None
      \/ sql_select_match fts5_match (text (strip isspace (chars query))) limit s = Some [] ->
      search_entities fts5_match query true limit s
      = search_entities fts5_match query false limit s).
Proof.
  intros Hint _ _. unfold search_entities, bind, lift, bind_int. rewrite Hint. split.
  - destruct (String.eqb _ ""); [by eauto|].
    destruct fts; [|by eauto].
    destruct (sql_select_match _ _ _ _) as [[|r rows]|]; by eauto.
  - intros [H|H]; rewrite H; by destruct (String.eqb _ "").
Qed.

Lemma search_fts_failure_falls_back_witness :
  search_entities (fun _ => None) "ada AND" true 25 store_ada
  = search_entities (fun _ => None) "ada AND" false 25 store_ada.
Proof.
  exact (proj2 (search_fts_failure_falls_back (fun _ => None) "ada AND" true 25 store_ada
                  eq_refl eq_refl eq_refl) (or_introl eq_refl)).
Defined.

(** * What the store keeps true *)

Lemma same_text_sym (a b : option string) : same_text a b = same_text b a.
Proof. destruct a, b; simpl; try done. apply String.eqb_sym. Qed.

Lemma slug_taken_false (slug : option string) (rows : list Row) :
  slug_taken slug rows = false <->
  forall r, r ∈ rows -> same_text (row_slug r) slug = false.
Proof.
  unfold slug_taken. induction rows as [|r0 rows IH]; simpl.
  - split; [|done]. by intros _ r Hr%elem_of_nil.
  - rewrite orb_false_iff, IH. split.
    + intros [H1 H2] r [->|Hr]%elem_of_cons; [done|by apply H2].
    + intros H. split; [apply H; by left|]. intros r Hr. apply H. by right.
Qed.

Lemma ids_below_next (s : Store) :
  Forall (fun r => row_id r < next_rowid s) (entities s).
Proof. apply Forall_forall. intros r Hr%row_id_le_max. unfold next_rowid. lia. Qed.

Lemma ids_increasing_snoc (rows : list Row) (r : Row) :
  ids_increasing rows -> Forall (fun r0 => row_id r0 < row_id r) rows ->
  ids_increasing (rows ++ [r]).
Proof.
  unfold ids_increasing. intros Hs Hlt. rewrite map_app. apply StronglySorted_app_2.
  - intros x1 x2 Hx1 Hx2. apply list_elem_of_fmap in Hx1 as (r1 & -> & Hr1).
    simpl in Hx2. apply list_elem_of_singleton in Hx2 as ->.
    rewrite Forall_forall in Hlt. by apply Hlt.
  - done.
  - simpl. repeat constructor.
Qed.

Lemma slugs_distinct_snoc (rows : list Row) (r : Row) :
  slugs_distinct rows -> slug_taken (row_slug r) rows = false ->
  slugs_distinct (rows ++ [r]).
Proof.
  intros Hd Ht. rewrite slug_taken_false in Ht.
  intros i j r1 r2 Hij H1 H2.
  apply lookup_app_Some in H1 as [H1|[Hi H1]], H2 as [H2|[Hj H2]].
  - by apply (Hd i j).
  - apply list_lookup_singleton_Some in H2 as [_ <-].
    apply Ht. by apply list_elem_of_lookup_2 in H1.
  - apply list_lookup_singleton_Some in H1 as [_ <-].
    rewrite same_text_sym. apply Ht. by apply list_elem_of_lookup_2 in H2.
  - apply list_lookup_singleton_Some in H1 as [Hi' _].
    apply list_lookup_singleton_Some in H2 as [Hj' _]. lia.
Qed.

Lemma fts_insert_last (d : Doc) (ix : list Doc) :
  Forall (fun x => doc_rowid x < doc_rowid d) ix -> fts_insert d ix = ix ++ [d].
Proof.
  induction 1 as [|x ix Hx _ IH]; [done|]. simpl.
  destruct (doc_rowid d <? doc_rowid x) eqn:E; [apply Z.ltb_lt in E; lia|]. by rewrite IH.
Qed.

Lemma inserted_consistent (s : Store) (r : Row) :
  consistent s ->
  row_id r = next_rowid s ->
  required_present r = true ->
  slug_taken (row_slug r) (entities s) = false ->
  consistent (inserted s r).
Proof.
  intros [Hids Hreq Hslugs Hix] Hid Hr Hslug.
  pose proof (ids_below_next s) as Hlt. rewrite <- Hid in Hlt.
  split; simpl.
  - by apply ids_increasing_snoc.
  - apply Forall_app. split; [done|]. by constructor.
  - by apply slugs_distinct_snoc.
  - unfold index_in_sync in *. simpl. destruct (entities_fts s) as [ix|]; [|done].
    simpl. subst ix. rewrite map_app. simpl. apply fts_insert_last.
    apply Forall_map. by eapply Forall_impl; [exact Hlt|].
Qed.

(** X5.  [add_entity] keeps the store consistent, whether it returns or
    raises: ids stay distinct and in order, the NOT NULL columns filled,
    the slugs distinct, and the full-text index, if there is one, in step
    with the table. *)
Theorem add_entity_consistent (fields : gmap string PyVal) (now : string) (s : Store) :
  consistent s -> consistent (snd (add_entity fields now s)).
Proof.
  intros Hs. destruct (add_entity fields now s) as [[rid|e] s'] eqn:E; simpl.
  - apply add_entity_ok_inv in E
      as (sv & ty & name & slug & d & tg & _ & _ & _ & _ & _ & _ & Hslug & Hid & ->).
    by apply inserted_consistent.
  - by apply add_entity_raise in E as ->.
Qed.

Lemma empty_store_fts_consistent : consistent empty_store_fts.
Proof.
  split; simpl; [constructor|constructor| |done].
  intros i j r1 r2 _ H. by rewrite lookup_nil in H.
Qed.

Lemma add_entity_consistent_witness : consistent store_ada.
Proof. exact (add_entity_consistent ada _ empty_store_fts empty_store_fts_consistent). Defined.

Lemma slugs_distinct_cons (r : Row) (rows : list Row) :
  slugs_distinct (r :: rows) <->
  slug_taken (row_slug r) rows = false /\ slugs_distinct rows.
Proof.
  rewrite slug_taken_false. split.
  - intros H. split.
    + intros r0 [k Hk]%list_elem_of_lookup_1.
      by apply (H (S k) 0%nat r0 r).
    + intros i j r1 r2 Hij H1 H2. apply (H (S i) (S j)); [lia|done|done].
  - intros [Ht Hd] i j r1 r2 Hij H1 H2.
    destruct i as [|i], j as [|j]; simpl in *; simplify_eq.
    + rewrite same_text_sym. apply Ht. by apply list_elem_of_lookup_2 in H2.
    + apply Ht. by apply list_elem_of_lookup_2 in H1.
    + apply (Hd i j); [lia|done|done].
Qed.

Lemma slug_taken_filter (P : Row -> Prop) `{!forall r, Decision (P r)}
    (slug : option string) (rows : list Row) :
  slug_taken slug rows = false -> slug_taken slug (filter P rows) = false.
Proof.
  rewrite !slug_taken_false. intros Hno r [_ Hr]%list_elem_of_filter. by apply Hno.
Qed.

Lemma rows_filter_consistent (P : Row -> Prop) `{!forall r, Decision (P r)} (rows : list Row) :
  ids_increasing rows -> Forall (fun r => required_present r = true) rows ->
  slugs_distinct rows ->
  ids_increasing (filter P rows)
  /\ Forall (fun r => required_present r = true) (filter P rows)
  /\ slugs_distinct (filter P rows).
Proof.
  unfold ids_increasing.
  induction rows as [|r rows IH]; intros Hids Hreq Hslugs; [done|].
  simpl in Hids. apply StronglySorted_cons in Hids as [Hlt Hids].
  apply Forall_cons in Hreq as [Hr Hreq].
  apply slugs_distinct_cons in Hslugs as [Ht Hslugs].
  destruct (IH Hids Hreq Hslugs) as (IH1 & IH2 & IH3).
  rewrite filter_cons. destruct (decide (P r)); [|done].
  split; [|split].
  - simpl. apply StronglySorted_cons. split; [|done].
    apply Forall_forall. intros x (r0 & -> & [_ Hr0]%list_elem_of_filter)%list_elem_of_fmap.
    rewrite Forall_forall in Hlt. apply Hlt. by apply list_elem_of_fmap_2.
  - by constructor.
  - apply slugs_distinct_cons. split; [|done]. by apply slug_taken_filter.
Qed.

Lemma fts_delete_docs (r : Row) (rows : list Row) :
  fts_delete (doc_of r) (map doc_of rows)
  = map doc_of (filter (fun x => row_id x ≠ row_id r) rows).
Proof.
  unfold fts_delete. simpl. induction rows as [|x rows IH]; [done|].
  cbn [map]. rewrite !filter_cons. simpl.
  destruct (decide (row_id x ≠ row_id r)); simpl; by rewrite IH.
Qed.

Lemma filter_id_twice (rid : Z) (rows : list Row) :
  filter (fun x => row_id x ≠ rid) (filter (fun x => row_id x ≠ rid) rows)
  = filter (fun x => row_id x ≠ rid) rows.
Proof.
  destruct (filter_absent rid _ (filter_absent_after rid rows)) as [H _]. exact H.
Qed.

Lemma entities_ad_some (r : Row) (ix : list Doc) :
  entities_ad r (Some ix) = Some (fts_delete (doc_of r) ix).
Proof. done. Qed.

Lemma fold_entities_ad (rid : Z) (gone rows : list Row) :
  Forall (fun r => row_id r = rid) gone ->
  fold_left (fun ix r => entities_ad r ix) gone (Some (map doc_of rows))
  = Some (map doc_of (match gone with
                      | [] => rows
                      | _ :: _ => filter (fun x => row_id x ≠ rid) rows
                      end)).
Proof.
  intros H. revert rows. induction H as [|r gone Hr _ IH]; intros rows; [done|].
  cbn [fold_left]. rewrite entities_ad_some, fts_delete_docs, Hr, IH. destruct gone; [done|].
  by rewrite filter_id_twice.
Qed.

Lemma filter_none_gone (rid : Z) (rows : list Row) :
  filter (fun x => row_id x = rid) rows = [] ->
  filter (fun x => row_id x ≠ rid) rows = rows.
Proof.
  induction rows as [|r rows IH]; [done|]. rewrite !filter_cons.
  destruct (decide (row_id r = rid)), (decide (row_id r ≠ rid)); try done.
  intros H. by rewrite IH.
Qed.

(** X7.  [delete_entity] keeps the store consistent: the row and its document
    in the full-text index go together. *)
Theorem delete_entity_consistent (rid : Z) (s : Store) :
  consistent s -> consistent (snd (delete_entity rid s)).
Proof.
  intros [Hids Hreq Hslugs Hix].
  unfold delete_entity, bind, lift, bind_int. destruct (int64_ok rid); [|done]. simpl.
  destruct (rows_filter_consistent (fun r => row_id r ≠ rid) _ Hids Hreq Hslugs)
    as (H1 & H2 & H3).
  split; simpl; try done.
  unfold index_in_sync in *. simpl. destruct (entities_fts s) as [ix|]; [|].
  - subst ix. rewrite (fold_entities_ad rid).
    + destruct (filter (fun r => row_id r = rid) (entities s)) eqn:E; [|done].
      by rewrite filter_none_gone.
    + apply Forall_forall. by intros r [Hr _]%list_elem_of_filter.
  - by induction (filter (fun r => row_id r = rid) (entities s)).
Qed.

Lemma store_ada_consistent : consistent store_ada.
Proof.
  replace store_ada with (inserted empty_store_fts row_ada_stored) by (by vm_compute).
  by apply inserted_consistent; [apply empty_store_fts_consistent|..].
Qed.



Lemma delete_entity_consistent_witness : consistent (snd (delete_entity 1 store_ada)).
Proof. exact (delete_entity_consistent 1 store_ada store_ada_consistent). Defined.

Lemma update_rows_ok sets rid others rows ix rows' ix' :
  update_rows sets rid others rows ix = Ok (rows', ix') ->
  rows' = map (rewritten sets rid) rows
  /\ forall r, r ∈ rows -> row_id r = rid ->
       not_null_violation sets = None
       /\ (assigns_slug sets = true ->
           slug_taken (row_slug (apply_sets sets r)) others = false).
Proof.
  revert ix rows' ix'. induction rows as [|r rows IH]; intros ix rows' ix' H; simpl in H.
  - injection H as <- <-. split; [done|]. by intros r Hr%elem_of_nil.
  - cbn [map]. destruct (row_id r =? rid) eqn:E.
    + destruct (not_null_violation sets) eqn:En; [done|].
      destruct (assigns_slug sets && slug_taken (row_slug (apply_sets sets r)) others) eqn:Es;
        [done|].
      destruct (update_rows sets rid others rows _) as [[rest' ix'']|] eqn:Er; [|done].
      injection H as <- <-. destruct (IH _ _ _ Er) as [-> IH2].
      split; [by unfold rewritten; rewrite E|].
      intros r0 [->|Hr0]%elem_of_cons Hid; [|by apply (IH2 r0)].
      split; [done|]. intros Ha. by rewrite Ha in Es.
    + destruct (update_rows sets rid others rows ix) as [[rest' ix'']|] eqn:Er; [|done].
      injection H as <- <-. destruct (IH _ _ _ Er) as [-> IH2].
      split; [by unfold rewritten; rewrite E|].
      intros r0 [->|Hr0]%elem_of_cons Hid; [|by apply (IH2 r0)].
      apply Z.eqb_neq in E. lia.
Qed.

Lemma ids_increasing_split (pre : list Row) (r : Row) (rest : list Row) :
  ids_increasing (pre ++ r :: rest) ->
  Forall (fun x => row_id x < row_id r) pre /\ Forall (fun x => row_id r < row_id x) rest.
Proof.
  unfold ids_increasing. rewrite map_app. simpl. intros H.
  apply StronglySorted_app in H as (H1 & _ & H2).
  apply StronglySorted_cons in H2 as [H2 _]. split.
  - apply Forall_forall. intros x Hx. apply H1; [by apply list_elem_of_fmap_2|by left].
  - rewrite Forall_fmap in H2. exact H2.
Qed.

Lemma fts_insert_mid (d : Doc) (pre rest : list Doc) :
  Forall (fun x => doc_rowid x < doc_rowid d) pre ->
  Forall (fun x => doc_rowid d < doc_rowid x) rest ->
  fts_insert d (pre ++ rest) = pre ++ d :: rest.
Proof.
  intros Hpre Hrest. induction Hpre as [|x pre Hx _ IH]; simpl.
  - destruct Hrest as [|y rest Hy _]; [done|]. simpl.
    by destruct (doc_rowid d <? doc_rowid y) eqn:E; [|apply Z.ltb_ge in E; lia].
  - destruct (doc_rowid d <? doc_rowid x) eqn:E; [apply Z.ltb_lt in E; lia|]. by rewrite IH.
Qed.

Lemma fts_replace (pre : list Row) (r r' : Row) (rest : list Row) :
  ids_increasing (pre ++ r :: rest) -> row_id r' = row_id r ->
  entities_au r r' (Some (map doc_of (pre ++ r :: rest)))
  = Some (map doc_of (pre ++ r' :: rest)).
Proof.
  intros Hids Hid. destruct (ids_increasing_split _ _ _ Hids) as [Hpre Hrest].
  unfold entities_au. cbn [fmap option_fmap option_map]. f_equal.
  rewrite fts_delete_docs, filter_app, filter_cons.
  destruct (decide (row_id r ≠ row_id r)); [done|].
  assert (Hp : filter (fun x => row_id x ≠ row_id r) pre = pre).
  { apply filter_absent. eapply Forall_impl; [exact Hpre|]. simpl. lia. }
  assert (Hr : filter (fun x => row_id x ≠ row_id r) rest = rest).
  { apply filter_absent. eapply Forall_impl; [exact Hrest|]. simpl. lia. }
  rewrite Hp, Hr, !map_app. cbn [map]. apply fts_insert_mid.
  - apply Forall_fmap. eapply Forall_impl; [exact Hpre|]. simpl. lia.
  - apply Forall_fmap. eapply Forall_impl; [exact Hrest|]. simpl. lia.
Qed.

Lemma update_rows_index sets rid others pre rows rows' ix' :
  ids_increasing (pre ++ rows) ->
  update_rows sets rid others rows (Some (map doc_of (pre ++ rows))) = Ok (rows', ix') ->
  ix' = Some (map doc_of (pre ++ rows')).
Proof.
  revert pre rows' ix'. induction rows as [|r rows IH]; intros pre rows' ix' Hids H.
  - simpl in H. by injection H as <- <-.
  - cbn [update_rows] in H. destruct (row_id r =? rid) eqn:E.
    + destruct (not_null_violation sets); [done|].
      destruct (assigns_slug sets && _); [done|].
      rewrite fts_replace in H by (done || apply row_id_apply_sets).
      replace (pre ++ apply_sets sets r :: rows)
        with ((pre ++ [apply_sets sets r]) ++ rows) in H by (by rewrite <- app_assoc).
      destruct (update_rows sets rid others rows _) as [[rest' ix'']|] eqn:Er; [|done].
      injection H as <- <-. apply IH in Er; [by rewrite <- app_assoc in Er|].
      unfold ids_increasing in *. rewrite <- app_assoc. cbn [app].
      rewrite map_app in *. cbn [map] in *. by rewrite row_id_apply_sets.
    + replace (pre ++ r :: rows) with ((pre ++ [r]) ++ rows) in H, Hids
        by (by rewrite <- app_assoc).
      destruct (update_rows sets rid others rows _) as [[rest' ix'']|] eqn:Er; [|done].
      injection H as <- <-. apply IH in Er; [by rewrite <- app_assoc in Er|done].
Qed.

Lemma apply_sets_required (sets : list (Column * option string)) (r : Row) :
  not_null_violation sets = None -> required_present r = true ->
  required_present (apply_sets sets r) = true.
Proof.
  unfold apply_sets. revert r. induction sets as [|[c v] sets IH]; intros r Hn Hr; [done|].
  simpl in *. apply IH.
  - destruct (not_null_column c); [|done]. by destruct (is_null v).
  - unfold required_present in *. destruct r as [id ty nm sl de tg me cr up].
    destruct c, v; simpl in *; try done; by destruct ty, nm, cr, up.
Qed.

Lemma apply_sets_slug (sets : list (Column * option string)) (r : Row) :
  assigns_slug sets = false -> row_slug (apply_sets sets r) = row_slug r.
Proof.
  unfold apply_sets, assigns_slug. revert r.
  induction sets as [|[c v] sets IH]; intros r H; [done|].
  simpl in *. apply orb_false_iff in H as [Hc H]. rewrite IH by done. by destruct c.
Qed.

Lemma ids_lookup_lt (rows : list Row) (a b : nat) (x y : Row) :
  ids_increasing rows -> (a < b)%nat -> rows !! a = Some x -> rows !! b = Some y ->
  row_id x < row_id y.
Proof.
  unfold ids_increasing. revert a b. induction rows as [|r rows IH]; intros a b Hs Hab Ha Hb.
  - by rewrite lookup_nil in Ha.
  - simpl in Hs. apply StronglySorted_cons in Hs as [Hr Hs].
    destruct b as [|b]; [lia|]. destruct a as [|a]; simpl in *.
    + injection Ha as <-. rewrite Forall_fmap, Forall_forall in Hr.
      apply Hr. by eapply list_elem_of_lookup_2.
    + apply (IH a b); [done|lia|done|done].
Qed.

Lemma ids_distinct (rows : list Row) (i j : nat) (r1 r2 : Row) :
  ids_increasing rows -> i <> j -> rows !! i = Some r1 -> rows !! j = Some r2 ->
  row_id r1 <> row_id r2.
Proof.
  intros Hs Hij H1 H2.
  destruct (Nat.lt_total i j) as [H|[H|H]]; [|lia|].
  - pose proof (ids_lookup_lt rows i j r1 r2 Hs H H1 H2). lia.
  - pose proof (ids_lookup_lt rows j i r2 r1 Hs H H2 H1). lia.
Qed.

Lemma update_rows_no_index sets rid others rows rows' ix' :
  update_rows sets rid others rows None = Ok (rows', ix') -> ix' = None.
Proof.
  revert rows' ix'. induction rows as [|r rows IH]; intros rows' ix' H; simpl in H.
  - by injection H as <- <-.
  - destruct (row_id r =? rid).
    + destruct (not_null_violation sets); [done|].
      destruct (assigns_slug sets && _); [done|]. simpl in H.
      destruct (update_rows sets rid others rows None) as [[rest' ix'']|] eqn:Er; [|done].
      injection H as <- <-. by eapply IH.
    + destruct (update_rows sets rid others rows None) as [[rest' ix'']|] eqn:Er; [|done].
      injection H as <- <-. by eapply IH.
Qed.

Lemma row_id_rewritten sets rid r : row_id (rewritten sets rid r) = row_id r.
Proof. unfold rewritten. destruct (row_id r =? rid); [apply row_id_apply_sets|done]. Qed.

Lemma rewritten_slugs sets rid rows :
  ids_increasing rows -> slugs_distinct rows ->
  (forall r, r ∈ rows -> row_id r = rid -> assigns_slug sets = true ->
     slug_taken (row_slug (apply_sets sets r))
       (filter (fun x => row_id x ≠ rid) rows) = false) ->
  slugs_distinct (map (rewritten sets rid) rows).
Proof.
  intros Hids Hd Hchk i j r1' r2' Hij H1 H2.
  rewrite list_lookup_fmap in H1, H2.
  destruct (rows !! i) as [r1|] eqn:E1; [|done]. destruct (rows !! j) as [r2|] eqn:E2; [|done].
  simpl in H1, H2. injection H1 as <-. injection H2 as <-.
  pose proof (ids_distinct rows i j r1 r2 Hids Hij E1 E2) as Hne.
  pose proof (Hd i j r1 r2 Hij E1 E2) as H12.
  assert (Hside : forall a b, a ∈ rows -> b ∈ rows -> row_id a = rid -> row_id b <> rid ->
                    same_text (row_slug a) (row_slug b) = false ->
                    same_text (row_slug (apply_sets sets a)) (row_slug b) = false).
  { intros a b Ha Hb Hida Hidb Hab. destruct (assigns_slug sets) eqn:Es.
    - specialize (Hchk a Ha Hida eq_refl). rewrite slug_taken_false in Hchk.
      rewrite same_text_sym. apply Hchk. by apply list_elem_of_filter.
    - by rewrite apply_sets_slug. }
  apply list_elem_of_lookup_2 in E1 as In1. apply list_elem_of_lookup_2 in E2 as In2.
  unfold rewritten.
  destruct (Z.eqb_spec (row_id r1) rid) as [Ea|Ea], (Z.eqb_spec (row_id r2) rid) as [Eb|Eb].
  - lia.
  - by apply Hside.
  - rewrite same_text_sym. apply Hside; try done. by rewrite same_text_sym.
  - done.
Qed.

Lemma sql_update_consistent sets rid s :
  consistent s -> consistent (snd (sql_update sets rid s)).
Proof.
  intros [Hids Hreq Hslugs Hix]. unfold sql_update.
  destruct (update_rows sets rid _ (entities s) (entities_fts s)) as [[rows' ix']|] eqn:E;
    [|done].
  destruct (update_rows_ok _ _ _ _ _ _ _ E) as [-> Hchk]. split; simpl.
  - unfold ids_increasing in *. rewrite map_map.
    erewrite map_ext; [exact Hids|]. intros r. apply row_id_rewritten.
  - apply Forall_map, Forall_forall. intros r Hr. simpl.
    rewrite Forall_forall in Hreq. unfold rewritten.
    destruct (Z.eqb_spec (row_id r) rid) as [Hid|Hid]; [|by apply Hreq].
    destruct (Hchk r Hr Hid) as [Hn _]. apply apply_sets_required; [done|by apply Hreq].
  - apply rewritten_slugs; try done. intros r Hr Hid Hs. by apply (Hchk r Hr Hid).
  - unfold index_in_sync in *. simpl. destruct (entities_fts s) as [ix|].
    + subst ix. by apply (update_rows_index sets rid _ []) in E as ->.
    + by apply update_rows_no_index in E as ->.
Qed.

(** X6.  [update_entity] keeps the store consistent, whether it returns or
    raises: a rewritten row keeps its id and its NOT NULL columns, no slug
    comes to be shared, and the full-text index holds the new document in
    place of the old one. *)
Theorem update_entity_consistent (entity_id : Z) (fields : gmap string PyVal) (now : string)
    (s : Store) :
  consistent s -> consistent (snd (update_entity entity_id fields now s)).
Proof.
  intros Hs. unfold update_entity, bind, lift, bind_int.
  destruct (bind_all (set_clause fields now)) as [sets|]; [|done].
  destruct (int64_ok entity_id); [|done]. by apply sql_update_consistent.
Qed.

Lemma update_entity_consistent_witness :
  consistent (snd (update_entity 1 {[ "name" := PyStr "Ada King" ]}
                     "2024-05-03T10:00:00.000001Z" store_ada)).
Proof. exact (update_entity_consistent 1 _ _ store_ada store_ada_consistent). Defined.

(** * Further properties of [init_db] *)

(** X8.  Running [init_db] again changes nothing and reports the same
    features; on a store that is empty or already has its index,
    consistency is kept. *)
Theorem init_db_idempotent (e : Engine) (conn : Store) :
  entities conn = [] \/ is_Some (entities_fts conn) ->
  consistent conn ->
  init_db e (snd (init_db e conn)) = init_db e conn
  /\ consistent (snd (init_db e conn)).
Proof.
  intros Hcase Hc. pose proof Hc as [Hids Hreq Hslugs Hix]. unfold init_db.
  destruct (db_supports_fts e) eqn:Ef; [|done].
  destruct (entities_fts conn) as [ix|] eqn:Ei.
  - simpl. by rewrite Ei.
  - destruct (fts5_module e) eqn:Em; simpl.
    + split; [done|]. destruct Hcase as [Hrows|[ix Hsome]]; [|done].
      split; simpl; try done. unfold index_in_sync. simpl. by rewrite Hrows.
    + by rewrite Ei.
Qed.

Lemma init_db_idempotent_witness :
  init_db (mkEngine ["ENABLE_FTS5"] true true)
    (snd (init_db (mkEngine ["ENABLE_FTS5"] true true) empty_store))
  = (mkFeatures true true, empty_store_fts).
Proof.
  assert (Hc : consistent empty_store).
  { split; simpl; [constructor|constructor| |done].
    intros i j r1 r2 _ H. by rewrite lookup_nil in H. }
  rewrite (proj1 (init_db_idempotent (mkEngine ["ENABLE_FTS5"] true true) empty_store
                    (or_introl eq_refl) Hc)).
  reflexivity.
Defined.

(** X9.  An index created over rows that are already there starts empty: the
    rows stored before it are not in it.  They are still found, since a
    full-text attempt without result falls back to the scan. *)
Theorem search_after_late_index (e : Engine) (conn : Store)
    (fts5_match : string -> option (Doc -> bool)) (query : string) (limit : Z) :
  entities_fts conn = None ->
  fts (fst (init_db e conn)) = true ->
  entities_fts (snd (init_db e conn)) = Some []
  /\ fst (search_entities fts5_match query true limit (snd (init_db e conn)))
     = fst (search_entities fts5_match query false limit conn).
Proof.
  intros Hnone Hfts. unfold init_db in *. rewrite Hnone in *.
  destruct (db_supports_fts e); [|done]. destruct (fts5_module e); [|done].
  simpl. split; [done|].
  unfold search_entities, bind, lift, bind_int. destruct (int64_ok limit); [|done].
  destruct (String.eqb _ ""); [done|].
  unfold sql_select_match. simpl. destruct (fts5_match _); [|done].
  simpl. unfold sql_limit at 1. destruct (_ <? 0); [done|]. by rewrite take_nil.
Qed.

Lemma search_after_late_index_witness :
  fst (search_entities match_any_column "ada" true 25
         (snd (init_db (mkEngine [] true true) (mkStore [row_ada_stored] 1 None))))
  = Ok [row_ada_stored].
Proof.
  rewrite (proj2 (search_after_late_index (mkEngine [] true true)
                    (mkStore [row_ada_stored] 1 None) match_any_column "ada" 25
                    eq_refl eq_refl)).
  reflexivity.
Defined.

(** * Edge cases of [add_entity] *)

(** X10.  A metadata value that Python counts as false (None, an empty mapping
    or list, zero, False, the empty text) is stored as the text of the
    empty object, exactly as when the key is absent. *)
Theorem add_entity_falsy_metadata (fields : gmap string PyVal) (v : PyVal) (now : string)
    (s : Store) :
  truthy v = false ->
  add_entity (<["metadata" := v]> fields) now s = add_entity (delete "metadata" fields) now s.
Proof.
  intros Hv. unfold add_entity, entity_slug, dict_get, dict_get_or, py_or.
  rewrite !lookup_insert_ne, !lookup_delete_ne by done.
  rewrite lookup_insert_eq, lookup_delete_eq. simpl. by rewrite Hv.
Qed.

Lemma add_entity_falsy_metadata_witness :
  add_entity (<["metadata" := PyInt 0]> ada) "2024-05-01T10:00:00.000001Z" empty_store_fts
  = (Ok 1, store_ada).
Proof.
  rewrite (add_entity_falsy_metadata ada (PyInt 0) _ empty_store_fts eq_refl).
  by vm_compute.
Defined.

(** X11.  Without a usable slug, a name that is there and is not a text (None
    included) stops [add_entity] in [slugify], with AttributeError, before
    the database is touched. *)
Theorem add_entity_name_not_text (fields : gmap string PyVal) (v : PyVal) (now : string)
    (s : Store) :
  truthy (dict_get fields "slug") = false ->
  fields !! "name" = Some v ->
  is_str v = false ->
  add_entity fields now s = (Raise AttributeError, s).
Proof.
  intros Hslug Hname Hv. unfold add_entity, bind, lift, entity_slug, dict_get_or.
  rewrite Hslug, Hname. simpl. by destruct v.
Qed.

Lemma add_entity_name_not_text_witness :
  add_entity {[ "type" := PyStr "person"; "name" := PyNone ]} "2024-05-01T10:00:00.000001Z"
    store_ada
  = (Raise AttributeError, store_ada).
Proof.
  exact (add_entity_name_not_text {[ "type" := PyStr "person"; "name" := PyNone ]} PyNone
           "2024-05-01T10:00:00.000001Z" store_ada eq_refl eq_refl eq_refl).
Defined.

(** * Errors of [update_entity] *)

Lemma set_clause_no_none (fields : gmap string PyVal) (now : string) :
  Forall (fun cv => snd cv <> PyNone) (set_clause fields now).
Proof.
  unfold set_clause. rewrite !Forall_app. split; [|split].
  - apply Forall_forall. intros [c v] Hin.
    apply list_elem_of_omap in Hin as ([k c'] & _ & Hv). simpl in *.
    unfold supplied in Hv. destruct (fields !! k) as [[]|]; simpl in Hv; by simplify_eq.
  - destruct (supplied fields "metadata"); by repeat constructor.
  - by repeat constructor.
Qed.

Lemma bind_all_not_null (l : list (Column * PyVal)) (sets : list (Column * option string)) :
  Forall (fun cv => snd cv <> PyNone) l -> bind_all l = Ok sets ->
  not_null_violation sets = None.
Proof.
  intros H. revert sets. induction H as [|[c v] l Hv _ IH]; intros sets Hb; simpl in Hb.
  - by injection Hb as <-.
  - destruct (bind_text v) as [t|] eqn:Et; [|done].
    destruct (bind_all l) as [ts|]; [|done]. injection Hb as <-.
    simpl. rewrite (IH ts eq_refl).
    assert (is_null t = false) as ->; [|by destruct (not_null_column c)].
    destruct v as [|b|z|str|l0|d]; simpl in *; [done| | | |done|done];
      [|destruct (int64_ok z)|]; by simplify_eq.
Qed.

Lemma bind_all_raise (l : list (Column * PyVal)) (e : PyErr) :
  bind_all l = Raise e -> e = ProgrammingError \/ e = OverflowError.
Proof.
  induction l as [|[c v] l IH]; simpl; [done|].
  destruct (bind_text v) as [t|e'] eqn:Et.
  - destruct (bind_all l); [done|]. intros [= <-]. by apply IH.
  - intros [= <-]. destruct v; simpl in Et; try done; simplify_eq; eauto.
    destruct (int64_ok z); simplify_eq. eauto.
Qed.

Lemma update_rows_raise sets rid others rows ix e :
  update_rows sets rid others rows ix = Raise e ->
  (exists name, not_null_violation sets = Some name)
  \/ (e = IntegrityError (Unique "slug") /\ assigns_slug sets = true).
Proof.
  revert ix. induction rows as [|r rows IH]; intros ix H; simpl in H; [done|].
  destruct (row_id r =? rid).
  - destruct (not_null_violation sets) as [name|]; [by eauto|].
    destruct (assigns_slug sets) eqn:Es; simpl in H.
    + destruct (slug_taken _ others); [injection H as <-; by right|].
      destruct (update_rows sets rid others rows _) as [[]|] eqn:Er; [done|].
      injection H as <-. by apply IH in Er.
    + destruct (update_rows sets rid others rows _) as [[]|] eqn:Er; [done|].
      injection H as <-. by apply IH in Er.
  - destruct (update_rows sets rid others rows ix) as [[]|] eqn:Er; [done|].
    injection H as <-. by apply IH in Er.
Qed.

Lemma assigns_slug_columns (sets : list (Column * option string)) :
  assigns_slug sets
  = existsb (fun c => match c with c_slug => true | _ => false end) sets.*1.
Proof. unfold assigns_slug. induction sets as [|[c v] sets IH]; simpl; [done|]. by rewrite IH. Qed.

Lemma assigns_slug_supplied fields now sets :
  bind_all (set_clause fields now) = Ok sets -> assigns_slug sets = true ->
  is_Some (supplied fields "slug").
Proof.
  intros Hb Ha. rewrite assigns_slug_columns, (bind_all_columns _ _ Hb) in Ha.
  destruct (supplied fields "slug") eqn:E; [by eauto|]. exfalso.
  unfold set_clause, text_columns in Ha. simpl in Ha. rewrite E in Ha.
  by destruct (supplied fields "type"), (supplied fields "name"),
    (supplied fields "description"), (supplied fields "tags"), (supplied fields "metadata").
Qed.


Lemma store_two_consistent : consistent store_two.
Proof.
  replace store_two
    with (inserted store_ada
            (mkRow 2 (Some "person") (Some "Grace Hopper") (Some "grace-hopper") None None
               (Some "{}") (Some "2024-05-01T10:00:02.000001Z")
               (Some "2024-05-01T10:00:02.000001Z"))) by (by vm_compute).
  by apply inserted_consistent; [apply store_ada_consistent|..].
Qed.


Lemma row_created_at_apply_sets sets r :
  row_created_at (apply_sets sets r) = row_created_at r.
Proof.
  unfold apply_sets. revert r. induction sets as [|[c v] sets IH]; intros r; simpl; [done|].
  rewrite IH. by destruct c.
Qed.

Lemma filter_rewritten sets rid rows :
  filter (fun r => row_id r ≠ rid) (map (rewritten sets rid) rows)
  = filter (fun r => row_id r ≠ rid) rows.
Proof.
  induction rows as [|r rows IH]; [done|]. cbn [map]. rewrite !filter_cons, IH.
  rewrite row_id_rewritten. destruct (decide (row_id r ≠ rid)) as [H|H]; [|done].
  unfold rewritten. by destruct (Z.eqb_spec (row_id r) rid).
Qed.

(** X13.  Whatever the fields, and whether it returns or raises,
    [update_entity] leaves the ids of the rows, their order, their
    creation times and the id counter as they were, and does not touch
    the rows of other ids. *)
Theorem update_entity_keeps_identity (entity_id : Z) (fields : gmap string PyVal)
    (now : string) (s : Store) :
  map row_id (entities (snd (update_entity entity_id fields now s))) = map row_id (entities s)
  /\ map row_created_at (entities (snd (update_entity entity_id fields now s)))
     = map row_created_at (entities s)
  /\ sqlite_sequence (snd (update_entity entity_id fields now s)) = sqlite_sequence s
  /\ filter (fun r => row_id r ≠ entity_id) (entities (snd (update_entity entity_id fields now s)))
     = filter (fun r => row_id r ≠ entity_id) (entities s).
Proof.
  unfold update_entity, bind, lift, bind_int.
  destruct (bind_all (set_clause fields now)) as [sets|]; [|done].
  destruct (int64_ok entity_id); [|done]. unfold sql_update.
  destruct (update_rows sets entity_id _ (entities s) (entities_fts s)) as [[rows' ix']|] eqn:E;
    [|done].
  destruct (update_rows_ok _ _ _ _ _ _ _ E) as [-> _]. simpl.
  split; [|split; [|split; [done|apply filter_rewritten]]].
  - rewrite map_map. apply map_ext. intros r. apply row_id_rewritten.
  - rewrite map_map. apply map_ext. intros r. unfold rewritten.
    destruct (row_id r =? entity_id); [apply row_created_at_apply_sets|done].
Qed.

(** * The order of [ORDER BY updated_at DESC] *)

Lemma string_compare_negtrans (a b c : string) :
  String.compare a c = Lt -> String.compare a b = Lt \/ String.compare b c = Lt.
Proof.
  revert b c. induction a as [|x a IH]; intros b c H.
  - destruct c as [|z c]; [done|]. destruct b; [by right|by left].
  - destruct c as [|z c]; [done|]. destruct b as [|y b]; [by right|].
    simpl in *. unfold Ascii.compare in *.
    destruct (N.compare_spec (N_of_ascii x) (N_of_ascii z)) as [Hxz|Hxz|Hxz]; [| |done].
    + destruct (N.compare_spec (N_of_ascii x) (N_of_ascii y)) as [Hxy|Hxy|Hxy].
      * rewrite <- Hxy, Hxz, N.compare_refl. by apply IH.
      * by left.
      * right. by destruct (N.compare_spec (N_of_ascii y) (N_of_ascii z)); [lia| |lia].
    + destruct (N.compare_spec (N_of_ascii x) (N_of_ascii y)) as [Hxy|Hxy|Hxy].
      * right. by destruct (N.compare_spec (N_of_ascii y) (N_of_ascii z)); [lia| |lia].
      * by left.
      * right. by destruct (N.compare_spec (N_of_ascii y) (N_of_ascii z)); [lia| |lia].
Qed.

Lemma sql_lt_asym (a b : option string) : sql_lt a b = true -> sql_lt b a = false.
Proof.
  destruct a as [x|], b as [y|]; simpl; try done.
  unfold String.ltb. rewrite (String.compare_antisym y x). by destruct (String.compare x y).
Qed.

Lemma sql_lt_negtrans (a b c : option string) :
  True -> sql_lt a c = true -> sql_lt a b = true \/ sql_lt b c = true.
Proof.
  intros _. destruct a as [x|], b as [y|], c as [z|]; simpl; try done; try by eauto.
  unfold String.ltb. destruct (String.compare x z) eqn:E; try done. intros _.
  destruct (string_compare_negtrans x y z E) as [-> | ->]; by eauto.
Qed.

(** X14.  A blank query lists the entities by recency, whatever the [fts]
    flag: the result is the first [limit] rows of the table put in
    descending order of [updated_at]. *)
Theorem search_blank_query (fts5_match : string -> option (Doc -> bool))
    (query : string) (fts : bool) (limit : Z) (s : Store) :
  String.eqb (text (strip isspace (chars query))) "" = true ->
  int64_ok limit = true ->
  0 <= limit ->
  exists sorted : list Row,
    search_entities fts5_match query fts limit s = (Ok (take (Z.to_nat limit) sorted), s)
    /\ Permutation sorted (entities s)
    /\ StronglySorted (not_below row_updated_at sql_lt) sorted.
Proof.
  intros Hq Hint Hpos. exists (order_by_updated_desc (entities s)).
  split; [|split].
  - unfold search_entities, bind, lift, bind_int. rewrite Hint, Hq.
    unfold sql_select_recent, sql_limit.
    by destruct (limit <? 0) eqn:E; [apply Z.ltb_lt in E; lia|].
  - apply sort_desc_perm.
  - apply (sort_desc_sorted row_updated_at sql_lt (fun _ => True) sql_lt_asym sql_lt_negtrans).
    by apply Forall_forall.
Qed.

Lemma search_blank_query_witness :
  fst (search_entities match_any_column "   " true 1 store_two)
  = Ok (take 1 (order_by_updated_desc (entities store_two)))
  /\ map row_name (order_by_updated_desc (entities store_two))
     = [Some "Grace Hopper"; Some "Ada Lovelace"].
Proof.
  assert (Hpos : 0 <= 1) by lia.
  destruct (search_blank_query match_any_column "   " true 1 store_two eq_refl eq_refl Hpos)
    as (sorted & H & _).
  split; by vm_compute.
Defined.

(** * Wildcards in a query *)

Lemma like_percents_nil (p : list ascii) :
  forallb (fun c => Ascii.eqb c percent) p = true -> like_match p [] = true.
Proof.
  induction p as [|c p IH]; [done|]. simpl. intros [Hc Hp]%andb_true_iff.
  rewrite Hc. by rewrite IH.
Qed.

Lemma like_percents (p t : list ascii) :
  forallb (fun c => Ascii.eqb c percent) p = true -> like_match (percent :: p) t = true.
Proof.
  intros Hp. induction t as [|d t IH]; rewrite like_percent_cons.
  - by rewrite like_percents_nil.
  - rewrite IH. apply orb_true_r.
Qed.

Lemma filter_all {A : Type} (f : A -> bool) (l : list A) :
  Forall (fun x => f x = true) l -> List.filter f l = l.
Proof. induction 1 as [|x l Hx _ IH]; simpl; [done|]. by rewrite Hx, IH. Qed.



(** * Further properties of the ranking *)

(** X16.  [rank_candidates] returns [top_n] candidates, or all of them when
    there are fewer; a negative [top_n] drops that many from the end
    instead.  Every candidate returned is a row of the input with the
    score of that row. *)
Theorem rank_candidates_length (matching : string -> string -> nat) (query : string)
    (rows : list Row) (top_n : Z) :
  Z.of_nat (length (rank_candidates matching query rows top_n))
  = (if top_n <? 0 then Z.max 0 (Z.of_nat (length rows) + top_n)
     else Z.min top_n (Z.of_nat (length rows)))
  /\ Forall (fun c => In (fst c) rows /\ snd c = score matching query (fst c))
       (rank_candidates matching query rows top_n).
Proof.
  unfold rank_candidates.
  pose proof (sort_desc_perm snd flt (scored matching query rows)) as Hperm.
  assert (Hlen : length (sort_desc snd flt (scored matching query rows)) = length rows).
  { rewrite (Permutation_length Hperm). unfold scored. apply length_map. }
  split.
  - unfold slice_to. rewrite Hlen. destruct (top_n <? 0) eqn:E.
    + apply Z.ltb_lt in E. rewrite length_take, Hlen. lia.
    + apply Z.ltb_ge in E. rewrite length_take, Hlen. lia.
  - assert (Hall : Forall (fun c => In (fst c) rows /\ snd c = score matching query (fst c))
                     (sort_desc snd flt (scored matching query rows))).
    { rewrite Hperm. unfold scored. apply Forall_map, Forall_forall. intros r Hr. simpl.
      split; [by apply list_elem_of_In|done]. }
    unfold slice_to. destruct (top_n <? 0); by apply Forall_take.
Qed.

(** * Further properties of the readers *)

(** X17.  [view_entity] only reads: the store is the same afterwards, and for
    an id that fits 64 bits and is not in the table it prints the single
    line [Not found]. *)
Theorem view_entity_reads_only (loads : string -> option PyVal) (entity_id : Z) (s : Store) :
  snd (view_entity loads entity_id s) = s
  /\ (int64_ok entity_id = true -> absent entity_id s ->
      view_entity loads entity_id s = (Ok ["Not found"], s)).
Proof.
  unfold view_entity, bind, fetch_entity, lift, bind_int, ret, sql_select_by_id.
  destruct (int64_ok entity_id); [|done]. simpl. split.
  - by destruct (fetchone _).
  - intros _ Habs. by destruct (filter_absent _ _ Habs) as [_ ->].
Qed.

(** X18.  Creating an entity leaves the others as they were: the table grows
    by the one new row at its end, and every other id reads back what it
    did before. *)
Theorem add_entity_frame (fields : gmap string PyVal) (now : string) (s s' : Store)
    (rid other : Z) :
  add_entity fields now s = (Ok rid, s') ->
  (exists r, entities s' = entities s ++ [r] /\ row_id r = rid)
  /\ (other <> rid -> fst (fetch_entity other s') = fst (fetch_entity other s)).
Proof.
  intros H. apply add_entity_ok_inv in H
    as (sv & ty & name & slug & d & tg & _ & _ & _ & _ & _ & _ & _ & Hid & ->).
  split; [by eexists|]. intros Hne.
  unfold fetch_entity, bind, lift, bind_int, sql_select_by_id.
  destruct (int64_ok other); [|done]. simpl. rewrite filter_app, filter_cons. simpl.
  destruct (decide (rid = other)); [lia|]. by rewrite filter_nil, app_nil_r.
Qed.

Lemma add_entity_frame_witness :
  fst (fetch_entity 1 store_two) = fst (fetch_entity 1 store_ada).
Proof.
  assert (H : add_entity grace "2024-05-01T10:00:02.000001Z" store_ada = (Ok 2, store_two))
    by (by vm_compute).
  assert (Hne : 1 <> 2) by lia.
  exact (proj2 (add_entity_frame _ _ _ _ 2 1 H) Hne).
Defined.

(** * Reading back an update *)

Lemma bind_all_lookup (l : list (Column * PyVal)) (sets : list (Column * option string))
    (c : Column) (v : PyVal) :
  bind_all l = Ok sets -> (c, v) ∈ l -> exists t, bind_text v = Ok t /\ (c, t) ∈ sets.
Proof.
  revert sets. induction l as [|[c0 v0] l IH]; intros sets Hb Hin.
  - by apply elem_of_nil in Hin.
  - simpl in Hb. destruct (bind_text v0) as [t0|] eqn:E0; [|done].
    destruct (bind_all l) as [ts|]; [|done]. injection Hb as <-.
    apply elem_of_cons in Hin as [[= -> ->]|Hin].
    + exists t0. split; [done|]. by left.
    + destruct (IH ts eq_refl Hin) as (t & Ht & Hts). exists t. split; [done|]. by right.
Qed.

Lemma col_set_col_eq (c : Column) (t : option string) (r : Row) : col c (set_col r (c, t)) = t.
Proof. by destruct c. Qed.

Lemma apply_sets_value (sets : list (Column * option string)) (r : Row) (c : Column)
    (t : option string) :
  NoDup sets.*1 -> (c, t) ∈ sets -> col c (apply_sets sets r) = t.
Proof.
  revert r. induction sets as [|[c0 t0] sets IH]; intros r Hnd Hin.
  - by apply elem_of_nil in Hin.
  - simpl in Hnd. apply NoDup_cons in Hnd as [Hc0 Hnd].
    change (apply_sets ((c0, t0) :: sets) r) with (apply_sets sets (set_col r (c0, t0))).
    apply elem_of_cons in Hin as [[= -> ->]|Hin].
    + rewrite col_apply_sets by done. apply col_set_col_eq.
    + by apply IH.
Qed.

Lemma set_clause_NoDup (fields : gmap string PyVal) (now : string) :
  NoDup (set_clause fields now).*1.
Proof.
  unfold set_clause, text_columns. simpl.
  destruct (supplied fields "type"), (supplied fields "name"), (supplied fields "slug"),
    (supplied fields "description"), (supplied fields "tags"), (supplied fields "metadata");
    simpl;
    repeat (apply NoDup_cons; split;
            [repeat (apply not_elem_of_cons; split; [done|]); apply not_elem_of_nil|]);
    apply NoDup_nil_2.
Qed.

Lemma set_clause_member (fields : gmap string PyVal) (now : string) (k : string) (c : Column)
    (v : PyVal) :
  (k, c) ∈ text_columns -> supplied fields k = Some v -> (c, v) ∈ set_clause fields now.
Proof.
  intros Hin Hv. unfold set_clause. apply elem_of_app. left.
  apply list_elem_of_omap. exists (k, c). split; [done|]. simpl. by rewrite Hv.
Qed.



(** * Letter case in a query *)

Lemma lower_char_idem (c : ascii) : lower_char (lower_char c) = lower_char c.
Proof. by destruct c as [[] [] [] [] [] [] [] []]. Qed.

Lemma lower_char_percent (c : ascii) :
  Ascii.eqb (lower_char c) percent = Ascii.eqb c percent.
Proof. by destruct c as [[] [] [] [] [] [] [] []]. Qed.

Lemma lower_char_underscore (c : ascii) :
  Ascii.eqb (lower_char c) underscore = Ascii.eqb c underscore.
Proof. by destruct c as [[] [] [] [] [] [] [] []]. Qed.

Lemma isspace_lower_char (c : ascii) : isspace (lower_char c) = isspace c.
Proof. by destruct c as [[] [] [] [] [] [] [] []]. Qed.

Lemma like_cons_other (c : ascii) (p t : list ascii) :
  Ascii.eqb c percent = false ->
  like_match (c :: p) t
  = match t with
    | [] => false
    | d :: t' => (Ascii.eqb c underscore || Ascii.eqb (lower_char c) (lower_char d))
                 && like_match p t'
    end.
Proof. intros H. simpl. by rewrite H. Qed.

Lemma like_match_lower_pattern (p t : list ascii) :
  like_match (map lower_char p) t = like_match p t.
Proof.
  revert t. induction p as [|c p IH]; intros t; [done|]. cbn [map].
  destruct (Ascii.eqb c percent) eqn:E.
  - apply Ascii.eqb_eq in E as ->. change (lower_char percent) with percent.
    induction t as [|d t IHt].
    + by rewrite (like_percent_cons (map lower_char p) []), (like_percent_cons p []), IH.
    + by rewrite (like_percent_cons (map lower_char p) (d :: t)),
        (like_percent_cons p (d :: t)), IH, IHt.
  - rewrite !like_cons_other by (by rewrite ?lower_char_percent).
    destruct t as [|d t]; [done|].
    by rewrite lower_char_underscore, lower_char_idem, IH.
Qed.

Lemma lstrip_lower (l : list ascii) :
  lstrip isspace (map lower_char l) = map lower_char (lstrip isspace l).
Proof.
  induction l as [|c l IH]; [done|]. simpl. rewrite isspace_lower_char.
  by destruct (isspace c).
Qed.

Lemma strip_lower (l : list ascii) :
  strip isspace (map lower_char l) = map lower_char (strip isspace l).
Proof.
  unfold strip, rstrip. by rewrite lstrip_lower, <- map_rev, lstrip_lower, map_rev.
Qed.

(** X20.  Without the index, the case of the letters of a query does not
    matter: the lowercased query gives the same rows in the same order. *)
Theorem search_case_insensitive (fts5_match : string -> option (Doc -> bool))
    (query : string) (limit : Z) (s : Store) :
  search_entities fts5_match (lower query) false limit s
  = search_entities fts5_match query false limit s.
Proof.
  unfold search_entities, bind, lift, bind_int. destruct (int64_ok limit); [|done].
  assert (Hq : strip isspace (chars (lower query))
               = map lower_char (strip isspace (chars query))).
  { unfold lower. by rewrite chars_text, strip_lower. }
  rewrite !Hq. set (qs := strip isspace (chars query)).
  assert (Hb : String.eqb (text (map lower_char qs)) "" = String.eqb (text qs) "")
    by (by destruct qs).
  rewrite Hb. destruct (String.eqb (text qs) ""); [done|].
  do 2 f_equal. unfold sql_select_like. do 2 f_equal.
  apply filter_ext_all. intros r.
  assert (Hl : forall v, sql_like ("%" +:+ text (map lower_char qs) +:+ "%") v
                         = sql_like ("%" +:+ text qs +:+ "%") v).
  { intros [t|]; [|done]. unfold sql_like.
    change (chars ("%" +:+ text (map lower_char qs) +:+ "%"))
      with (percent :: chars (text (map lower_char qs) +:+ "%")).
    change (chars ("%" +:+ text qs +:+ "%")) with (percent :: chars (text qs +:+ "%")).
    rewrite !chars_append, !chars_text.
    rewrite <- (like_match_lower_pattern (percent :: qs ++ chars "%")).
    cbn [map]. by rewrite map_app. }
  by rewrite !Hl.
Qed.

(** * Properties of the candidate chooser *)

Lemma choose_returns (max_digits : nat) (scored : list (Row * spec_float))
    (stdin unread : list string) (out : list Output) (z : Z) :
  choose max_digits scored stdin = (Returned (Some z), unread, out) ->
  z = -1 \/ exists c, c ∈ scored /\ row_id (fst c) = z.
Proof.
  revert unread out. induction stdin as [|line rest IH]; intros unread out H; [done|].
  cbn [choose] in H.
  assert (Hagain : forall o,
            (let '(v, unread', out') := choose max_digits scored rest in
             (v, unread', Asked choose_prompt :: o ++ out'))
            = (Returned (Some z), unread, out) ->
            z = -1 \/ exists c, c ∈ scored /\ row_id (fst c) = z).
  { intros o Ho. destruct (choose max_digits scored rest) as [[v u] o'] eqn:E.
    injection Ho as -> -> _. by eapply IH. }
  destruct (String.eqb _ ""); [by eapply Hagain|].
  destruct (str_in_list _ ["a"; "add"]%string); [injection H as <-; by left|].
  destruct (str_in_list _ ["s"; "search"]%string); [done|].
  destruct (str_in_list _ ["q"]%string || _); [done|].
  destruct (isdigit _); [|by eapply Hagain].
  destruct (int_of_digits _ _) as [n|]; [|done].
  destruct ((1 <=? n) && _); [|by eapply Hagain].
  destruct (scored !! Z.to_nat (n - 1)) as [c|] eqn:Ec; [|by eapply Hagain].
  injection H as <- _ _. right. exists c. split; [|done]. by eapply list_elem_of_lookup_2.
Qed.

(** X21.  A number returned by [fuzzy_select_loop] is [-1], for "add", or the
    id of one of the candidates shown: no other id can come out of it,
    whatever is typed. *)
Theorem fuzzy_select_loop_candidate (max_digits : nat) (scored : list (Row * spec_float))
    (stdin unread : list string) (out : list Output) (z : Z) :
  fuzzy_select_loop max_digits scored stdin = (Returned (Some z), unread, out) ->
  z = -1 \/ exists c, c ∈ scored /\ row_id (fst c) = z.
Proof.
  unfold fuzzy_select_loop. destruct scored as [|c0 scored]; [done|].
  destruct (choose max_digits (c0 :: scored) stdin) as [[v u] o] eqn:E.
  intros [= -> -> _]. by eapply choose_returns.
Qed.

Lemma fuzzy_select_loop_candidate_witness :
  fuzzy_select_loop 4300 [(row_ada, f120); (row_blank, f0)] ["x"; " 2 "; "q"]
  = (Returned (Some 7), ["q"],
     snd (fuzzy_select_loop 4300 [(row_ada, f120); (row_blank, f0)] ["x"; " 2 "; "q"]))
  /\ row_id row_blank = 7.
Proof.
  assert (H : fuzzy_select_loop 4300 [(row_ada, f120); (row_blank, f0)] ["x"; " 2 "; "q"]
              = (Returned (Some 7), ["q"],
                 snd (fuzzy_select_loop 4300 [(row_ada, f120); (row_blank, f0)]
                        ["x"; " 2 "; "q"]))) by (by vm_compute).
  split; [exact H|].
  destruct (fuzzy_select_loop_candidate _ _ _ _ _ _ H) as [Hz|(c & _ & _)]; [lia|done].
Defined.

Lemma str_of_Z_pos (p : positive) :
  str_of_Z (Z.pos p) = NilEmpty.string_of_uint (Pos.to_uint p).
Proof.
  unfold str_of_Z. simpl. pose proof (DecimalPos.Unsigned.to_uint_nonnil p) as H.
  by destruct (Pos.to_uint p).
Qed.

Lemma digits_of_uint (d : Decimal.uint) :
  forallb is_digit (chars (NilEmpty.string_of_uint d)) = true.
Proof. induction d; simpl; try done; by rewrite IHd. Qed.

Lemma isdigit_str_of_Z (p : positive) : isdigit (str_of_Z (Z.pos p)) = true.
Proof.
  rewrite str_of_Z_pos. unfold isdigit.
  pose proof (digits_of_uint (Pos.to_uint p)) as H.
  pose proof (DecimalPos.Unsigned.to_uint_nonnil p) as Hn.
  by destruct (Pos.to_uint p).
Qed.

Lemma int_of_digits_str_of_Z (max_digits : nat) (p : positive) :
  max_digits = 0%nat \/ (String.length (str_of_Z (Z.pos p)) <= max_digits)%nat ->
  int_of_digits max_digits (str_of_Z (Z.pos p)) = Some (Z.pos p).
Proof.
  intros Hmax. unfold int_of_digits.
  assert (negb (max_digits =? 0)%nat
          && (max_digits <? String.length (str_of_Z (Z.pos p)))%nat = false) as ->.
  { destruct Hmax as [->|H]; [done|]. apply andb_false_iff. right. by apply Nat.ltb_ge. }
  rewrite str_of_Z_pos.
  pose proof (NilEmpty.usu (Pos.to_uint p)) as Hu.
  pose proof (DecimalPos.Unsigned.to_uint_nonnil p) as Hn.
  assert (NilZero.uint_of_string (NilEmpty.string_of_uint (Pos.to_uint p))
          = Some (Pos.to_uint p)) as ->.
  { unfold NilZero.uint_of_string. by destruct (Pos.to_uint p). }
  simpl. unfold Z.of_uint. by rewrite DecimalPos.Unsigned.of_to.
Qed.

Lemma digit_first (s : string) :
  isdigit s = true -> exists c r, lower s = String c r /\ is_digit c = true.
Proof.
  unfold isdigit, lower. destruct s as [|c r]; [done|]. simpl.
  intros [Hc _]%andb_true_iff. exists (lower_char c), (text (map lower_char (chars r))).
  split; [done|]. by destruct c as [[] [] [] [] [] [] [] []].
Qed.

Lemma digit_no_command (c : ascii) (r : string) :
  is_digit c = true ->
  str_in_list (String c r) ["a"; "add"]%string = false
  /\ str_in_list (String c r) ["s"; "search"]%string = false
  /\ str_in_list (String c r) ["q"]%string = false
  /\ str_in_list (String c r) ["quit"; "exit"; ":q"]%string = false.
Proof.
  intros Hc. unfold str_in_list. cbn [existsb String.eqb].
  assert (H : forall d : ascii, is_digit d = false -> Ascii.eqb c d = false).
  { intros d Hd. destruct (Ascii.eqb_spec c d) as [->|]; [congruence|done]. }
  rewrite !H by done. done.
Qed.

(** X22.  Typing the number of a candidate, blanks around it or not, opens that
    candidate: the loop reads this one line, prints nothing after its
    prompt and returns the id of the row at that place in the list.  The
    number is read by [int], whose limit on the number of digits, if
    set, must allow it. *)
Theorem fuzzy_select_loop_number (max_digits : nat) (scored : list (Row * spec_float))
    (n : nat) (c : Row * spec_float) (line : string) (rest : list string) :
  scored !! n = Some c ->
  text (strip isspace (chars line)) = str_of_Z (Z.of_nat (S n)) ->
  max_digits = 0%nat \/ (String.length (str_of_Z (Z.of_nat (S n))) <= max_digits)%nat ->
  fuzzy_select_loop max_digits scored (line :: rest)
  = (Returned (Some (row_id (fst c))), rest,
     candidate_lines 1 scored
     ++ [Printed "a) Add new entity"; Printed "s) Search again"; Printed "q) Quit"]
     ++ [Asked choose_prompt]).
Proof.
  intros Hc Hline Hmax. unfold fuzzy_select_loop.
  destruct scored as [|c0 scored']; [done|]. set (scored := c0 :: scored') in *.
  assert (Hch : choose max_digits scored (line :: rest)
                = (Returned (Some (row_id (fst c))), rest, [Asked choose_prompt]));
    [|by rewrite Hch].
  cbn [choose]. rewrite Hline.
  change (Z.of_nat (S n)) with (Z.pos (Pos.of_succ_nat n)) in *.
  pose proof (isdigit_str_of_Z (Pos.of_succ_nat n)) as Hd.
  destruct (digit_first _ Hd) as (ch & r & Hlow & Hch).
  destruct (digit_no_command ch r Hch) as (H1 & H2 & H3 & H4).
  assert (String.eqb (str_of_Z (Z.pos (Pos.of_succ_nat n))) "" = false) as ->.
  { unfold isdigit in Hd. by destruct (str_of_Z (Z.pos (Pos.of_succ_nat n))). }
  rewrite Hlow, H1, H2, H3, H4, Hd. cbn [orb].
  rewrite (int_of_digits_str_of_Z max_digits _ Hmax).
  apply lookup_lt_Some in Hc as Hlen.
  assert ((1 <=? Z.pos (Pos.of_succ_nat n))
          && (Z.pos (Pos.of_succ_nat n) <=? Z.of_nat (length scored)) = true) as ->.
  { apply andb_true_iff. split; apply Z.leb_le; lia. }
  replace (Z.to_nat (Z.pos (Pos.of_succ_nat n) - 1)) with n by lia.
  by rewrite Hc.
Qed.

Lemma fuzzy_select_loop_number_witness :
  fst (fst (fuzzy_select_loop 4300 [(row_ada, f120); (row_blank, f0)] ["  2 "; "q"]))
  = Returned (Some 7).
Proof.
  rewrite (fuzzy_select_loop_number 4300 [(row_ada, f120); (row_blank, f0)] 1
             (row_blank, f0) "  2 " ["q"] eq_refl eq_refl); [reflexivity|].
  right. vm_compute. lia.
Defined.

Lemma single_line_append (a b : string) :
  single_line (a +:+ b) = single_line a && single_line b.
Proof. unfold single_line. by rewrite chars_append, forallb_app. Qed.

Lemma single_line_digits (l : list ascii) :
  forallb is_digit l = true -> forallb (fun c => negb (Ascii.eqb c newline)) l = true.
Proof.
  induction l as [|c l IH]; [done|]. simpl. intros [Hc Hl]%andb_true_iff.
  rewrite IH by done. by destruct c as [[] [] [] [] [] [] [] []].
Qed.

Lemma single_line_str_of_Z (z : Z) : single_line (str_of_Z z) = true.
Proof.
  unfold single_line. destruct z as [|p|p]; [done| |].
  - rewrite str_of_Z_pos. apply single_line_digits, digits_of_uint.
  - unfold str_of_Z. simpl.
    pose proof (DecimalPos.Unsigned.to_uint_nonnil p) as Hn.
    pose proof (single_line_digits _ (digits_of_uint (Pos.to_uint p))) as H.
    by destruct (Pos.to_uint p).
Qed.

Lemma single_line_first_line (l : list ascii) : single_line (text (first_line l)) = true.
Proof.
  unfold single_line. rewrite chars_text. induction l as [|c l IH]; [done|]. simpl.
  destruct (Ascii.eqb c newline) eqn:E; [done|]. simpl. by rewrite E.
Qed.

(** X23.  The short form of a row is one line when its type and its name are:
    of the description only the part before the first line feed is
    shown. *)
Theorem format_row_short_single_line (r : Row) :
  single_line (or_text (row_type r) "") = true ->
  single_line (or_text (row_name r) "") = true ->
  single_line (format_row_short r) = true.
Proof.
  intros Ht Hn. unfold format_row_short.
  rewrite !single_line_append, Ht, Hn, single_line_str_of_Z, single_line_first_line.
  done.
Qed.

Lemma format_row_short_single_line_witness :
  single_line
    (format_row_short
       (mkRow 3 (Some "note") (Some "Plan") None
          (Some ("first line" +:+ nl +:+ "second line")) None None None None)) = true
  /\ format_row_short
       (mkRow 3 (Some "note") (Some "Plan") None
          (Some ("first line" +:+ nl +:+ "second line")) None None None None)
     = "[3] (note) Plan " +:+ row_separator +:+ " first line".
Proof.
  split; [|reflexivity].
  exact (format_row_short_single_line
           (mkRow 3 (Some "note") (Some "Plan") None
              (Some ("first line" +:+ nl +:+ "second line")) None None None None)
           eq_refl eq_refl).
Defined.

(** * The text of the metadata *)

Lemma printable_append (a b : string) : printable (a +:+ b) = printable a && printable b.
Proof. unfold printable. by rewrite chars_append, forallb_app. Qed.

Lemma printable_escape (c : ascii) : forallb printable_char (json_escape_char c) = true.
Proof. by destruct c as [[] [] [] [] [] [] [] []]. Qed.

Lemma printable_quote (s : string) : printable (json_quote s) = true.
Proof.
  unfold printable, json_quote. rewrite chars_text. cbn [forallb].
  rewrite forallb_app. simpl. rewrite andb_true_r.
  induction (chars s) as [|c l IH]; [done|]. simpl.
  by rewrite forallb_app, printable_escape, IH.
Qed.

Lemma printable_digits (l : list ascii) :
  forallb is_digit l = true -> forallb printable_char l = true.
Proof.
  induction l as [|c l IH]; [done|]. simpl. intros [Hc Hl]%andb_true_iff.
  rewrite IH by done. by destruct c as [[] [] [] [] [] [] [] []].
Qed.

Lemma printable_str_of_Z (z : Z) : printable (str_of_Z z) = true.
Proof.
  unfold printable. destruct z as [|p|p]; [done| |].
  - rewrite str_of_Z_pos. apply printable_digits, digits_of_uint.
  - unfold str_of_Z. simpl.
    pose proof (DecimalPos.Unsigned.to_uint_nonnil p) as Hn.
    pose proof (printable_digits _ (digits_of_uint (Pos.to_uint p))) as H.
    by destruct (Pos.to_uint p).
Qed.

Lemma printable_join (sep : string) (l : list string) :
  printable sep = true -> Forall (fun t => printable t = true) l ->
  printable (join sep l) = true.
Proof.
  intros Hsep Hl. destruct Hl as [|x l Hx Hl]; [done|]. simpl.
  revert x Hx. induction Hl as [|y l Hy _ IH]; intros x Hx; [done|].
  simpl. apply IH. by rewrite !printable_append, Hx, Hsep, Hy.
Qed.

Lemma PyVal_induction (P : PyVal -> Prop) :
  P PyNone -> (forall b, P (PyBool b)) -> (forall z, P (PyInt z)) -> (forall t, P (PyStr t)) ->
  (forall l, Forall P l -> P (PyList l)) ->
  (forall d, Forall (fun kv => P (snd kv)) d -> P (PyDict d)) ->
  forall v, P v.
Proof.
  intros HN HB HZ HS HL HD. fix IH 1. intros [|b|z|t|l|d].
  - exact HN.
  - apply HB.
  - apply HZ.
  - apply HS.
  - apply HL. revert l. fix IHl 1. intros [|x l]; constructor; [apply IH|apply IHl].
  - apply HD. revert d. fix IHd 1. intros [|[k x] d]; constructor; [apply IH|apply IHd].
Qed.

Lemma json_dumps_printable (v : PyVal) : printable (json_dumps v) = true.
Proof.
  induction v as [|[]|z|t|l IHl|d IHd] using PyVal_induction; try done.
  - apply printable_str_of_Z.
  - apply printable_quote.
  - cbn [json_dumps]. rewrite !printable_append. simpl.
    rewrite andb_true_r. apply printable_join; [done|]. by apply Forall_map.
  - cbn [json_dumps]. rewrite !printable_append. simpl.
    rewrite andb_true_r. apply printable_join; [done|].
    apply Forall_map. eapply Forall_impl; [exact IHd|]. intros [k x] Hx. simpl in *.
    by rewrite !printable_append, printable_quote, Hx.
Qed.

(** X24.  The metadata text [add_entity] stores is printable 7-bit text on one
    line, whatever the metadata holds: [json.dumps] escapes everything
    else. *)
Theorem add_entity_metadata_printable (fields : gmap string PyVal) (now : string)
    (s s' : Store) (rid : Z) :
  add_entity fields now s = (Ok rid, s') ->
  exists r t,
    fetchone (sql_select_by_id rid s') = Some r
    /\ row_metadata r = Some t
    /\ printable t = true.
Proof.
  intros H. apply add_entity_ok_inv in H
    as (sv & ty & name & slug & d & tg & _ & _ & _ & _ & _ & _ & _ & Hid & ->).
  eexists _, _. split; [|split; [|apply json_dumps_printable]].
  - rewrite Hid. by apply (select_inserted s (mkRow (next_rowid s) _ _ _ _ _ _ _ _)).
  - done.
Qed.

Lemma add_entity_metadata_printable_witness :
  exists r t,
    fetchone (sql_select_by_id 1
                (snd (add_entity
                        (<["metadata" := PyDict [("note", PyStr ("a" +:+ nl +:+ "b"))]]> ada)
                        "2024-05-01T10:00:00.000001Z" empty_store_fts))) = Some r
    /\ row_metadata r = Some t
    /\ printable t = true.
Proof.
  assert (H : add_entity (<["metadata" := PyDict [("note", PyStr ("a" +:+ nl +:+ "b"))]]> ada)
                "2024-05-01T10:00:00.000001Z" empty_store_fts
              = (Ok 1, snd (add_entity
                              (<["metadata" := PyDict [("note", PyStr ("a" +:+ nl +:+ "b"))]]>
                                 ada)
                              "2024-05-01T10:00:00.000001Z" empty_store_fts)))
    by (by vm_compute).
  exact (add_entity_metadata_printable _ _ _ _ _ H).
Defined.
